(** * scripts/generate-diagrams.py: the diagram generation script

    A shallow embedding of the script: four builders that describe a fixed
    scene and hand it to the external [diagrams] library, and the
    orchestrator [main] that prepares [docs/diagrams], runs the builders,
    prints a summary and decides the exit code.

    The script is embedded twice.

    The first part is the script on a healthy machine.
    - The interpreter state the script can observe or change is the record
      [Proc]: the file system, the working directory, the console and
      [sys.path].  Python code is a computation in the monad [M], which
      threads a [Proc] and either returns a value or raises an exception;
      state changes made before a [raise] are kept, as in Python.
    - The file system is a finite map from absolute paths to entries, with
      no permission bits; the console accepts every line; nobody
      interrupts the process.
    - The [diagrams] library is not part of the script.  What it does is
      given by a [World]: which imports fail, which scenes fail to build or
      render, and the bytes of a rendered image.
    What the script writes, prints and returns is stated on this part.

    The second part, the module [Full], is the script in an environment
    that can raise an exception of any class in place of every call the
    script makes to the outside ([print], [os.mkdir], [os.chdir],
    [os.getcwd], the glob, the imports, the rendering), with the keys of
    [sys.modules] in the state.  Which exceptions leave the builders and
    [main], and what a run changes in the process, is stated on this part.
    The first part is the second in an environment where nothing but the
    library raises (lemmas [healthy_main] and [healthy_script]). *)

From stdpp Require Import gmap strings list fin_maps.
From Stdlib Require Import DecimalString ZArith.

(** ** Exceptions *)

(** The classes the model distinguishes.  The first three are the
    [OSError] subclasses the script's own calls can provoke on a healthy
    file system; [OSErrorSubclass] stands for any other class below
    [OSError] ([PermissionError], [BrokenPipeError], ...);
    [ExceptionSubclass] stands for any other class below [Exception]
    ([ImportError], [UnicodeEncodeError], the library's own errors, ...);
    [BaseExceptionOnly] stands for the classes that derive from
    [BaseException] but not from [Exception] ([KeyboardInterrupt],
    [SystemExit], [GeneratorExit]). *)
Inductive pyclass :=
| FileNotFoundError
| FileExistsError
| NotADirectoryError
| OSErrorSubclass (name : string)
| ExceptionSubclass (name : string)
| BaseExceptionOnly (name : string).

(** An exception object: its class and [str(e)]. *)
Record exn := Exn { exn_class : pyclass; exn_text : string }.

(** [isinstance(e, Exception)], the test made by [except Exception]. *)
Definition isinstance_Exception (e : exn) : bool :=
  match exn_class e with
  | BaseExceptionOnly _ => false
  | _ => true
  end.

Definition isinstance_FileNotFoundError (e : exn) : bool :=
  match exn_class e with
  | FileNotFoundError => true
  | _ => false
  end.

(** [isinstance(e, OSError)], the test made by [except OSError]. *)
Definition isinstance_OSError (e : exn) : bool :=
  match exn_class e with
  | FileNotFoundError | FileExistsError | NotADirectoryError
  | OSErrorSubclass _ => true
  | _ => false
  end.

(** ** Process state *)

(** Absolute paths are lists of components from the root; a relative
    [pathlib.Path] is the list of its components, [Path(".")] being []. *)

Inductive entry :=
| EDir
| EFile (content : string).

Record Proc := mkProc {
  fs : gmap (list string) entry;   (* the file system *)
  cwd : list string;               (* os.getcwd(), as an absolute path *)
  stdout : list string;            (* one element per call of print *)
  sys_path : list string;          (* sys.path *)
  chdir_log : list (list string)   (* instrumentation: the target of every
                                      successful os.chdir, oldest first *)
}.

Definition set_fs (f : gmap (list string) entry) (s : Proc) : Proc :=
  mkProc f (cwd s) (stdout s) (sys_path s) (chdir_log s).
Definition set_stdout (o : list string) (s : Proc) : Proc :=
  mkProc (fs s) (cwd s) o (sys_path s) (chdir_log s).
Definition set_sys_path (p : list string) (s : Proc) : Proc :=
  mkProc (fs s) (cwd s) (stdout s) p (chdir_log s).
Definition enter_dir (a : list string) (s : Proc) : Proc :=
  mkProc (fs s) a (stdout s) (sys_path s) (chdir_log s ++ [a]).

(** ** The monad of Python computations *)

Inductive res (A : Type) :=
| Ok (a : A)
| Raise (e : exn).
Arguments Ok {A} a.
Arguments Raise {A} e.

Definition M (A : Type) : Type := Proc -> res A * Proc.

Definition ret {A} (a : A) : M A := fun s => (Ok a, s).

Definition raise {A} (e : exn) : M A := fun s => (Raise e, s).

Definition bind {A B} (c : M A) (k : A -> M B) : M B := fun s =>
  match c s with
  | (Ok a, s') => k a s'
  | (Raise e, s') => (Raise e, s')
  end.

Declare Scope py_scope.
Delimit Scope py_scope with py.
Notation "x <- c ;; k" := (bind c (fun x => k))
  (at level 100, c at next level, right associativity) : py_scope.
Notation "c ;; k" := (bind c (fun _ => k))
  (at level 100, right associativity) : py_scope.
Local Open Scope py_scope.

(** [try: body except <cls> as e: handler e], where [catches e] is the
    [isinstance] test of the except clause.  An exception the clause does
    not match keeps propagating. *)
Definition try_except {A} (body : M A) (catches : exn -> bool)
    (handler : exn -> M A) : M A := fun s =>
  match body s with
  | (Ok a, s') => (Ok a, s')
  | (Raise e, s') => if catches e then handler e s' else (Raise e, s')
  end.

(** [print(line)] on a console that accepts the line; [Full.print] is
    the call on a console that may refuse it. *)
Definition print (line : string) : M unit := fun s =>
  (Ok tt, set_stdout (stdout s ++ [line]) s).

(** ** Strings and paths *)

Definition nl : string := String (Ascii.ascii_of_nat 10) EmptyString.

(** [str(n)] for a non-negative integer. *)
Definition str_nat (n : nat) : string := NilEmpty.string_of_uint (Nat.to_uint n).

Definition ends_with (suffix s : string) : bool :=
  String.eqb
    (String.substring (String.length s - String.length suffix)
                      (String.length suffix) s)
    suffix
  && (String.length suffix <=? String.length s)%nat.

(** [str(p)] for an absolute path. *)
Fixpoint Path_str (a : list string) : string :=
  match a with
  | [] => ""
  | c :: rest => "/" +:+ c +:+ Path_str rest
  end.

(** [str(p)] for a relative path: ["docs/diagrams"], and ["."] for
    [Path(".")]. *)
Definition rel_str (rel : list string) : string :=
  match rel with
  | [] => "."
  | c :: rest => fold_left (fun acc x => acc +:+ "/" +:+ x) rest c
  end.

(** The [OSError] a failed system call on the path [rel] raises; its text
    is [strerror] followed by the path as it was passed. *)
Definition os_error (cls : pyclass) (rel : list string) : exn :=
  Exn cls
    (match cls with
     | FileNotFoundError => "[Errno 2] No such file or directory"
     | FileExistsError => "[Errno 17] File exists"
     | NotADirectoryError => "[Errno 20] Not a directory"
     | _ => "[Errno 13] Permission denied"
     end +:+ ": '" +:+ rel_str rel +:+ "'").

(** [p.name]: the last component. *)
Definition Path_name (p : list string) : string := List.last p "".

(** ** [os] and [pathlib] *)

Definition is_dir (f : gmap (list string) entry) (a : list string) : bool :=
  match f !! a with
  | Some EDir => true
  | _ => false
  end.

(** [os.mkdir(rel)]: the parent must be a directory and the name free.
    [Path(".")] names the working directory itself, which is never made:
    the call fails with [EEXIST], or with [ENOENT] when the working
    directory has been removed. *)
Definition os_mkdir (rel : list string) : M unit := fun s =>
  let a := cwd s ++ rel in
  match rel with
  | [] =>
    match fs s !! a with
    | Some _ => (Raise (os_error FileExistsError rel), s)
    | None => (Raise (os_error FileNotFoundError rel), s)
    end
  | _ :: _ =>
    match fs s !! removelast a with
    | None => (Raise (os_error FileNotFoundError rel), s)
    | Some (EFile _) => (Raise (os_error NotADirectoryError rel), s)
    | Some EDir =>
      match fs s !! a with
      | Some _ => (Raise (os_error FileExistsError rel), s)
      | None => (Ok tt, set_fs (<[a := EDir]> (fs s)) s)
      end
    end
  end.

(** [rel.is_dir()] *)
Definition Path_is_dir (rel : list string) : M bool := fun s =>
  (Ok (is_dir (fs s) (cwd s ++ rel)), s).

(** [rel.mkdir(parents=False, exist_ok=exist_ok)]: one [os.mkdir]; an
    [OSError] other than [FileNotFoundError] is swallowed when [exist_ok]
    holds and the path is a directory. *)
Definition Path_mkdir_leaf (rel : list string) (exist_ok : bool) : M unit :=
  try_except (os_mkdir rel) (fun _ => true) (fun e =>
    if isinstance_FileNotFoundError e then raise e
    else
      d <- Path_is_dir rel;;
      if negb exist_ok || negb d then raise e else ret tt).

(** [rel.mkdir(parents=True, exist_ok=exist_ok)], by recursion on the
    reversed component list [rrel]: on [FileNotFoundError] the parent is
    made with [parents=True, exist_ok=True] and the leaf is retried with
    [parents=False]; [Path(".")] is its own parent and re-raises. *)
Fixpoint Path_mkdir_parents (rrel : list string) (exist_ok : bool) : M unit :=
  let rel := rev rrel in
  try_except (os_mkdir rel) (fun _ => true) (fun e =>
    if isinstance_FileNotFoundError e then
      match rrel with
      | [] => raise e
      | _ :: rparent =>
          Path_mkdir_parents rparent true;;
          Path_mkdir_leaf rel exist_ok
      end
    else
      d <- Path_is_dir rel;;
      if negb exist_ok || negb d then raise e else ret tt).

Definition Path_mkdir (rel : list string) (parents exist_ok : bool) : M unit :=
  if parents then Path_mkdir_parents (rev rel) exist_ok
  else Path_mkdir_leaf rel exist_ok.

(** [os.chdir(rel)], as far as the shape of the file system decides it;
    [Full.os_chdir] adds the refusals that depend on permissions. *)
Definition os_chdir (rel : list string) : M unit := fun s =>
  let a := cwd s ++ rel in
  match fs s !! a with
  | Some EDir => (Ok tt, enter_dir a s)
  | Some (EFile _) => (Raise (os_error NotADirectoryError rel), s)
  | None => (Raise (os_error FileNotFoundError rel), s)
  end.

(** [os.getcwd()] *)
Definition os_getcwd : M string := fun s => (Ok (Path_str (cwd s)), s).

(** [rel.absolute()]: the working directory at the time of the call,
    followed by [rel]; nothing is normalised. *)
Definition Path_absolute (rel : list string) : M (list string) := fun s =>
  (Ok (cwd s ++ rel), s).

(** The name of [k] when [k] is a direct child of [dir]. *)
Fixpoint child_name (dir k : list string) : option string :=
  match dir, k with
  | [], [name] => Some name
  | d :: dir', c :: k' => if String.eqb d c then child_name dir' k' else None
  | _, _ => None
  end.

(** The children of [dir] named [*.png], as absolute paths. *)
Definition png_children (f : gmap (list string) entry) (dir : list string)
    : list (list string) :=
  List.filter
    (fun k => match child_name dir k with
              | Some name => ends_with ".png" name
              | None => false
              end)
    (map fst (map_to_list f)).

(** [list(rel.glob("*.png"))]: empty unless [rel] is a directory; each
    match is [rel / name].  [Full.Path_glob_png] adds the exceptions of a
    directory that may not be searched. *)
Definition Path_glob_png (rel : list string) : M (list (list string)) := fun s =>
  let dir := cwd s ++ rel in
  if is_dir (fs s) dir
  then (Ok (map (fun k => rel ++ [Path_name k]) (png_children (fs s) dir)), s)
  else (Ok [], s).

(** ** The [diagrams] library *)

Inductive direction := TB | LR.

(** [Edge(color=..., style=..., label=...)]; every edge of the script gives
    a colour and a style, a label only sometimes. *)
Record Edge := mkEdge {
  color : string;
  style : string;
  label : option string
}.

(** The statements found inside a [with Diagram(...)] block. *)
#[warnings="-register-all"]
Inductive Stmt :=
| Node (var icon text : string)           (* var = icon("text") *)
| Cluster (text : string) (body : list Stmt)  (* with Cluster("text"): body *)
| Chain (vars : list string)              (* a >> b, a >> b >> c *)
| Via (src : string) (e : Edge) (dst : string)  (* src >> Edge(...) >> dst *)
| Into (e : Edge) (dst : string).         (* Edge(...) >> dst *)

(** [Diagram(title, show=..., direction=...)] with the block it encloses. *)
Record Diagram := mkDiagram {
  title : string;
  show : bool;
  layout : direction;
  scene : list Stmt
}.

(** What the script cannot decide by itself: whether an icon symbol can be
    imported, whether a scene can be built and rendered, and the bytes of
    the image.  [None] means that no exception is raised. *)
Record World := mkWorld {
  import_fault : string -> string -> option exn;
  diagram_fault : Diagram -> option exn;
  encode_png : Diagram -> string
}.

(** [from module import n1, n2, ...], as far as the names it binds go;
    [Full.from_import] adds the loading of the module and its effect on
    [sys.modules]. *)
Fixpoint from_import (w : World) (module : string) (names : list string)
    : M unit :=
  match names with
  | [] => ret tt
  | n :: rest =>
      match import_fault w module n with
      | Some e => raise e
      | None => from_import w module rest
      end
  end.

Definition slug_char (c : Ascii.ascii) : Ascii.ascii :=
  let n := Ascii.nat_of_ascii c in
  if (n =? 32)%nat then Ascii.ascii_of_nat 95
  else if (65 <=? n)%nat && (n <=? 90)%nat then Ascii.ascii_of_nat (n + 32)
  else c.

(** Modelled from the spec: the file name the library derives from a
    diagram title, "named deterministically from the diagram title
    (lowercased, spaces replaced)"; the library itself is an external
    dependency and its source is not part of the repository. *)
Fixpoint slug (t : string) : string :=
  match t with
  | EmptyString => EmptyString
  | String c rest => String (slug_char c) (slug rest)
  end.

Definition png_name (d : Diagram) : string := slug (title d) +:+ ".png".

(** Modelled from the spec: the [with Diagram(...)] block.  The library
    either raises while the scene is built or rendered, leaving no file, or
    writes one PNG named after the title into the working directory; the
    library itself is an external dependency and its source is not part of
    the repository. *)
Definition with_Diagram (w : World) (d : Diagram) : M unit := fun s =>
  match diagram_fault w d with
  | Some e => (Raise e, s)
  | None =>
      (Ok tt, set_fs (<[cwd s ++ [png_name d] := EFile (encode_png w d)]> (fs s)) s)
  end.

(** ** The four scenes *)

Definition current_hobby_scene : list Stmt :=
  [ Node "users" "Users" "End Users";
    Node "igw" "InternetGateway" "Internet Gateway";
    Cluster "VPC"
      [ Node "public_subnet" "NATGateway" ("Public Subnet" +:+ nl +:+ "(ELB + NAT)");
        Node "private_subnet" "EC2" ("Private Subnet" +:+ nl +:+ "(EC2 Instances)");
        Node "alb" "ELB" "Application Load Balancer";
        Node "ec2_asg" "EC2" "EC2 Auto Scaling Group";
        Node "rds" "RDS" "RDS PostgreSQL";
        Node "redis" "ElastiCache" "ElastiCache Redis";
        Node "param_store" "ParameterStore" "Parameter Store" ];
    Node "cognito" "Cognito" "AWS Cognito";
    Chain ["users"; "igw"; "public_subnet"];
    Chain ["public_subnet"; "alb"];
    Chain ["alb"; "private_subnet"];
    Chain ["private_subnet"; "ec2_asg"];
    Via "ec2_asg" (mkEdge "blue" "dashed" None) "rds";
    Via "ec2_asg" (mkEdge "red" "dashed" None) "redis";
    Via "ec2_asg" (mkEdge "green" "dashed" None) "param_store";
    Via "ec2_asg" (mkEdge "orange" "dashed" None) "cognito" ].

Definition consolidated_scene : list Stmt :=
  [ Node "users" "Users" "End Users";
    Cluster "External Services (Free Tier)"
      [ Node "neon" "PostgreSQL" ("Neon PostgreSQL" +:+ nl +:+ "(Free - 1GB)");
        Node "upstash" "Redis" ("Upstash Redis" +:+ nl +:+ "(Free - 30MB)") ];
    Cluster "AWS Infrastructure (Minimal Cost)"
      [ Node "alb" "ELB" "Application Load Balancer";
        Cluster "ECS Fargate Cluster"
          [ Node "ecs_service" "ECS" "ECS Service";
            Node "fargate_tasks" "Fargate"
              ("Fargate Tasks" +:+ nl +:+ "(API + UI)" +:+ nl +:+ "256MB/512MB") ];
        Node "secrets_mgr" "SecretsManager" "AWS Secrets Manager" ];
    Node "cognito" "Cognito" "AWS Cognito";
    Node "s3" "S3" "S3 Storage";
    Node "cloudwatch" "Cloudwatch" ("CloudWatch" +:+ nl +:+ "(Monitoring)");
    Node "iam" "IAM" "IAM Roles";
    Chain ["users"; "alb"];
    Chain ["alb"; "ecs_service"];
    Chain ["ecs_service"; "fargate_tasks"];
    Via "fargate_tasks" (mkEdge "blue" "solid" (Some "Neon DB")) "neon";
    Via "fargate_tasks" (mkEdge "red" "solid" (Some "Upstash Redis")) "upstash";
    Via "fargate_tasks" (mkEdge "green" "dashed" None) "secrets_mgr";
    Via "fargate_tasks" (mkEdge "orange" "dashed" None) "cognito";
    Via "fargate_tasks" (mkEdge "purple" "dashed" None) "s3";
    Via "fargate_tasks" (mkEdge "brown" "dashed" None) "iam";
    Via "fargate_tasks" (mkEdge "gray" "dotted" None) "cloudwatch" ].

Definition future_scaling_scene : list Stmt :=
  [ Node "users" "Users" "End Users";
    Node "cloudfront" "CloudFront" "CloudFront CDN";
    Node "waf" "WAF" "AWS WAF";
    Node "shield" "Shield" "AWS Shield";
    Node "alb" "ELB" "Application Load Balancer";
    Cluster "ECS Fargate Cluster (Auto-Scaled)"
      [ Cluster "API Service"
          [ Node "api_tasks" "Fargate" ("API Tasks" +:+ nl +:+ "(2-10 instances)") ];
        Cluster "UI Service"
          [ Node "ui_tasks" "Fargate" ("UI Tasks" +:+ nl +:+ "(2-5 instances)") ] ];
    Cluster "External Database Services"
      [ Node "neon_primary" "PostgreSQL" ("Neon Primary" +:+ nl +:+ "(Production Branch)");
        Node "neon_replicas" "PostgreSQL" ("Neon Read Replicas" +:+ nl +:+ "(Auto-created)");
        Node "upstash_redis" "Redis" ("Upstash Redis" +:+ nl +:+ "(Scaled Instance)") ];
    Node "s3" "S3" "S3 Storage";
    Node "cloudwatch" "Cloudwatch" "CloudWatch Monitoring";
    Chain ["users"; "cloudfront"];
    Chain ["cloudfront"; "waf"];
    Chain ["waf"; "shield"];
    Chain ["shield"; "alb"];
    Chain ["alb"; "api_tasks"];
    Chain ["alb"; "ui_tasks"];
    Via "api_tasks" (mkEdge "blue" "solid" (Some "Primary DB")) "neon_primary";
    Via "api_tasks" (mkEdge "blue" "dashed" (Some "Read Replicas")) "neon_replicas";
    Via "api_tasks" (mkEdge "red" "solid" (Some "Redis Cache")) "upstash_redis";
    Via "ui_tasks" (mkEdge "green" "dashed" None) "s3";
    Via "api_tasks" (mkEdge "gray" "dotted" None) "cloudwatch";
    Via "ui_tasks" (mkEdge "gray" "dotted" None) "cloudwatch";
    Into (mkEdge "orange" "dashed" (Some ("Auto Scale" +:+ nl +:+ "2-10 tasks"))) "api_tasks";
    Into (mkEdge "orange" "dashed" (Some ("Auto Scale" +:+ nl +:+ "2-5 tasks"))) "ui_tasks";
    Into (mkEdge "purple" "dotted" (Some "Auto-branching")) "neon_replicas" ].

Definition corrected_neon_scene : list Stmt :=
  [ Node "prod_db" "PostgreSQL"
      ("Production DB" +:+ nl +:+ "(Main Branch)" +:+ nl +:+ "- Live data" +:+ nl
       +:+ "- Latest schema" +:+ nl +:+ "- pgvector enabled");
    Node "staging_db" "PostgreSQL"
      ("Staging DB" +:+ nl +:+ "(Branch from Production)" +:+ nl
       +:+ "- Pre-deployment testing" +:+ nl +:+ "- Schema validation");
    Node "feature_db" "PostgreSQL"
      ("Feature DB" +:+ nl +:+ "(Branch from Staging)" +:+ nl
       +:+ "- Feature development" +:+ nl +:+ "- Isolated testing");
    Node "dev_client" "Client"
      ("Development" +:+ nl +:+ "(Localhost)" +:+ nl +:+ "- Uses branch DB" +:+ nl
       +:+ "- Based on git branch");
    Cluster "Deployment Pipeline"
      [ Node "blank1" "Blank" ("Feature" +:+ nl +:+ "Deployment");
        Node "blank2" "Blank" ("Staging" +:+ nl +:+ "Validation");
        Node "blank3" "Blank" ("Production" +:+ nl +:+ "Release") ];
    Cluster "ECS Services"
      [ Node "feature_ecs" "Fargate" ("Feature" +:+ nl +:+ "ECS Tasks");
        Node "staging_ecs" "Fargate" ("Staging" +:+ nl +:+ "ECS Tasks");
        Node "prod_ecs" "Fargate" ("Production" +:+ nl +:+ "ECS Tasks") ];
    Via "prod_db" (mkEdge "red" "solid" (Some "Auto-branch")) "staging_db";
    Via "staging_db" (mkEdge "blue" "solid" (Some "Auto-branch")) "feature_db";
    Via "staging_db" (mkEdge "red" "dashed" (Some "Schema sync")) "prod_db";
    Via "feature_db" (mkEdge "blue" "dashed" (Some "Schema sync")) "staging_db";
    Via "dev_client" (mkEdge "green" "solid" (Some "Local dev")) "feature_db";
    Via "dev_client" (mkEdge "orange" "solid" (Some "Local staging")) "staging_db";
    Via "feature_ecs" (mkEdge "blue" "solid" None) "feature_db";
    Via "staging_ecs" (mkEdge "red" "solid" None) "staging_db";
    Via "prod_ecs" (mkEdge "purple" "solid" None) "prod_db";
    Chain ["feature_db"; "blank1"];
    Chain ["blank1"; "staging_db"];
    Chain ["blank1"; "blank2"];
    Chain ["blank2"; "prod_db"];
    Chain ["blank2"; "blank3"] ].

(** ** The four builders *)

Definition generate_current_hobby_architecture (w : World) : M bool :=
  try_except
    (from_import w "diagrams" ["Diagram"; "Cluster"; "Edge"];;
     from_import w "diagrams.aws.compute" ["ECS"; "EC2"];;
     from_import w "diagrams.aws.network" ["ELB"; "VPC"; "InternetGateway"; "NATGateway"];;
     from_import w "diagrams.aws.database" ["RDS"; "ElastiCache"];;
     from_import w "diagrams.aws.security" ["IAM"; "Cognito"];;
     from_import w "diagrams.aws.management" ["ParameterStore"];;
     from_import w "diagrams.aws.general" ["Users"];;
     with_Diagram w
       (mkDiagram "Current Hobby Deployment Architecture" false TB current_hobby_scene);;
     print "✅ Generated: Current Hobby Deployment Architecture";;
     ret true)
    isinstance_Exception
    (fun e =>
       print ("❌ Failed to generate current hobby architecture: " +:+ exn_text e);;
       ret false).

Definition generate_consolidated_architecture (w : World) : M bool :=
  try_except
    (from_import w "diagrams" ["Diagram"; "Cluster"; "Edge"];;
     from_import w "diagrams.aws.compute" ["ECS"; "Fargate"];;
     from_import w "diagrams.aws.network" ["ELB"];;
     from_import w "diagrams.aws.security" ["IAM"; "Cognito"; "SecretsManager"];;
     from_import w "diagrams.aws.storage" ["S3"];;
     from_import w "diagrams.aws.management" ["Cloudwatch"];;
     from_import w "diagrams.onprem.database" ["PostgreSQL"];;
     from_import w "diagrams.onprem.inmemory" ["Redis"];;
     from_import w "diagrams.onprem.client" ["Users"];;
     with_Diagram w
       (mkDiagram "Consolidated ECS + External Services Architecture" false TB
          consolidated_scene);;
     print "✅ Generated: Consolidated ECS + External Services Architecture";;
     ret true)
    isinstance_Exception
    (fun e =>
       print ("❌ Failed to generate consolidated architecture: " +:+ exn_text e);;
       ret false).

Definition generate_future_scaling_architecture (w : World) : M bool :=
  try_except
    (from_import w "diagrams" ["Diagram"; "Cluster"; "Edge"];;
     from_import w "diagrams.aws.compute" ["ECS"; "Fargate"];;
     from_import w "diagrams.aws.network" ["ELB"; "CloudFront"];;
     from_import w "diagrams.aws.security" ["WAF"; "Shield"];;
     from_import w "diagrams.aws.management" ["Cloudwatch"];;
     from_import w "diagrams.aws.storage" ["S3"];;
     from_import w "diagrams.onprem.database" ["PostgreSQL"];;
     from_import w "diagrams.onprem.inmemory" ["Redis"];;
     from_import w "diagrams.onprem.client" ["Users"];;
     with_Diagram w
       (mkDiagram "Future Scaling Architecture" false TB future_scaling_scene);;
     print "✅ Generated: Future Scaling Architecture";;
     ret true)
    isinstance_Exception
    (fun e =>
       print ("❌ Failed to generate future scaling architecture: " +:+ exn_text e);;
       ret false).

Definition generate_corrected_neon_branching (w : World) : M bool :=
  try_except
    (from_import w "diagrams" ["Diagram"; "Cluster"; "Edge"];;
     from_import w "diagrams.onprem.database" ["PostgreSQL"];;
     from_import w "diagrams.aws.compute" ["ECS"; "Fargate"];;
     from_import w "diagrams.onprem.client" ["Client"];;
     from_import w "diagrams.generic.blank" ["Blank"];;
     with_Diagram w
       (mkDiagram "Corrected Neon Database Branching Strategy" false LR
          corrected_neon_scene);;
     print "✅ Generated: Corrected Neon Database Branching Strategy";;
     ret true)
    isinstance_Exception
    (fun e =>
       print ("❌ Failed to generate corrected Neon branching: " +:+ exn_text e);;
       ret false).

(** ** The orchestrator *)

(** [Path("docs/diagrams")], a relative path. *)
Definition diagrams_dir : list string := ["docs"; "diagrams"].

(** Lines 287-291: the four calls, each result appended with its name. *)
Definition generate_all (w : World) : M (list (string * bool)) :=
  let results := [] in
  r <- generate_current_hobby_architecture w;;
  let results := results ++ [("Current Hobby Architecture", r)] in
  r <- generate_consolidated_architecture w;;
  let results := results ++ [("Consolidated Architecture", r)] in
  r <- generate_future_scaling_architecture w;;
  let results := results ++ [("Future Scaling Architecture", r)] in
  r <- generate_corrected_neon_branching w;;
  let results := results ++ [("Corrected Neon Branching", r)] in
  ret results.

(** Lines 296-300: the loop over [results], counting the successes. *)
Fixpoint results_loop (results : list (string * bool)) (successful : nat)
    : M nat :=
  match results with
  | [] => ret successful
  | (name, success) :: rest =>
      let status := if success then "✅ SUCCESS" else "❌ FAILED" in
      print ("  " +:+ name +:+ ": " +:+ status);;
      results_loop rest (if success then successful + 1 else successful)
  end.

(** Lines 309-310: one line per globbed file. *)
Fixpoint files_loop (png_files : list (list string)) : M unit :=
  match png_files with
  | [] => ret tt
  | file :: rest => print ("  - " +:+ Path_name file);; files_loop rest
  end.

Definition tally_line (successful total : nat) : string :=
  nl +:+ "📁 Generated " +:+ str_nat successful +:+ "/" +:+ str_nat total
     +:+ " diagrams successfully".

Definition saved_to_line (a : list string) : string :=
  "📂 Diagrams saved to: " +:+ Path_str a.

(** Lines 293-312: the summary, the file listing and the returned flag. *)
Definition report (results : list (string * bool)) : M bool :=
  print (nl +:+ "📊 Generation Results:");;
  successful <- results_loop results 0;;
  print (tally_line successful (length results));;
  a <- Path_absolute diagrams_dir;;
  print (saved_to_line a);;
  png_files <- Path_glob_png diagrams_dir;;
  match png_files with
  | [] => ret tt
  | _ :: _ => print (nl +:+ "📄 Generated files:");; files_loop png_files
  end;;
  ret (successful =? length results)%nat.

(** Lines 277-284: the banner, the output directory and the change of
    working directory. *)
Definition prepare : M unit :=
  print "🚀 Starting diagram generation...";;
  Path_mkdir diagrams_dir true true;;
  os_chdir diagrams_dir.

Definition main (w : World) : M bool :=
  prepare;;
  results <- generate_all w;;
  report results.

(** ** The script as a process *)

(** Line 13: [sys.path.insert(0, os.getcwd())], run when the module loads. *)
Definition module_init : M unit :=
  c <- os_getcwd;;
  fun s => (Ok tt, set_sys_path (c :: sys_path s) s).

(** How the process ends: [sys.exit(code)], or an exception nobody caught. *)
Inductive outcome :=
| Exited (code : Z)
| Uncaught (e : exn).

(** Lines 314-316, after the module-level statements. *)
Definition script (w : World) (s : Proc) : outcome * Proc :=
  match (module_init;; main w) s with
  | (Ok success, s') => (Exited (if success then 0 else 1)%Z, s')
  | (Raise e, s') => (Uncaught e, s')
  end.

(** The status the interpreter reports to the caller: the argument of
    [sys.exit], or 1 after the traceback of an uncaught instance of
    [Exception].  For the other classes the status depends on the class
    ([SystemExit] carries its own, [KeyboardInterrupt] ends the process by
    signal) and is left open. *)
Definition exit_status (o : outcome) : option Z :=
  match o with
  | Exited code => Some code
  | Uncaught e => if isinstance_Exception e then Some 1%Z else None
  end.

(** A process started in directory [inv] on file system [f]. *)
Definition start (inv : list string) (f : gmap (list string) entry)
    (syspath : list string) : Proc :=
  mkProc f inv [] syspath [].

(** ** The common shape of the builders *)

Record Shape := mkShape {
  sh_imports : list (string * list string);
  sh_diagram : Diagram;
  sh_done : string;
  sh_failed : string
}.

Fixpoint imports_then {A} (w : World) (imports : list (string * list string))
    (k : M A) : M A :=
  match imports with
  | [] => k
  | (m, names) :: rest => from_import w m names;; imports_then w rest k
  end.

Definition build (w : World) (sh : Shape) : M bool :=
  try_except
    (imports_then w (sh_imports sh)
       (with_Diagram w (sh_diagram sh);; print (sh_done sh);; ret true))
    isinstance_Exception
    (fun e => print (sh_failed sh +:+ exn_text e);; ret false).

Definition current_hobby_shape : Shape :=
  mkShape
    [ ("diagrams", ["Diagram"; "Cluster"; "Edge"]);
      ("diagrams.aws.compute", ["ECS"; "EC2"]);
      ("diagrams.aws.network", ["ELB"; "VPC"; "InternetGateway"; "NATGateway"]);
      ("diagrams.aws.database", ["RDS"; "ElastiCache"]);
      ("diagrams.aws.security", ["IAM"; "Cognito"]);
      ("diagrams.aws.management", ["ParameterStore"]);
      ("diagrams.aws.general", ["Users"]) ]
    (mkDiagram "Current Hobby Deployment Architecture" false TB current_hobby_scene)
    "✅ Generated: Current Hobby Deployment Architecture"
    "❌ Failed to generate current hobby architecture: ".

Definition consolidated_shape : Shape :=
  mkShape
    [ ("diagrams", ["Diagram"; "Cluster"; "Edge"]);
      ("diagrams.aws.compute", ["ECS"; "Fargate"]);
      ("diagrams.aws.network", ["ELB"]);
      ("diagrams.aws.security", ["IAM"; "Cognito"; "SecretsManager"]);
      ("diagrams.aws.storage", ["S3"]);
      ("diagrams.aws.management", ["Cloudwatch"]);
      ("diagrams.onprem.database", ["PostgreSQL"]);
      ("diagrams.onprem.inmemory", ["Redis"]);
      ("diagrams.onprem.client", ["Users"]) ]
    (mkDiagram "Consolidated ECS + External Services Architecture" false TB
       consolidated_scene)
    "✅ Generated: Consolidated ECS + External Services Architecture"
    "❌ Failed to generate consolidated architecture: ".

Definition future_scaling_shape : Shape :=
  mkShape
    [ ("diagrams", ["Diagram"; "Cluster"; "Edge"]);
      ("diagrams.aws.compute", ["ECS"; "Fargate"]);
      ("diagrams.aws.network", ["ELB"; "CloudFront"]);
      ("diagrams.aws.security", ["WAF"; "Shield"]);
      ("diagrams.aws.management", ["Cloudwatch"]);
      ("diagrams.aws.storage", ["S3"]);
      ("diagrams.onprem.database", ["PostgreSQL"]);
      ("diagrams.onprem.inmemory", ["Redis"]);
      ("diagrams.onprem.client", ["Users"]) ]
    (mkDiagram "Future Scaling Architecture" false TB future_scaling_scene)
    "✅ Generated: Future Scaling Architecture"
    "❌ Failed to generate future scaling architecture: ".

Definition corrected_neon_shape : Shape :=
  mkShape
    [ ("diagrams", ["Diagram"; "Cluster"; "Edge"]);
      ("diagrams.onprem.database", ["PostgreSQL"]);
      ("diagrams.aws.compute", ["ECS"; "Fargate"]);
      ("diagrams.onprem.client", ["Client"]);
      ("diagrams.generic.blank", ["Blank"]) ]
    (mkDiagram "Corrected Neon Database Branching Strategy" false LR
       corrected_neon_scene)
    "✅ Generated: Corrected Neon Database Branching Strategy"
    "❌ Failed to generate corrected Neon branching: ".

(** The builders with the name each is reported under, in call order. *)
Definition builders : list (string * (World -> M bool) * Shape) :=
  [ ("Current Hobby Architecture", generate_current_hobby_architecture, current_hobby_shape);
    ("Consolidated Architecture", generate_consolidated_architecture, consolidated_shape);
    ("Future Scaling Architecture", generate_future_scaling_architecture, future_scaling_shape);
    ("Corrected Neon Branching", generate_corrected_neon_branching, corrected_neon_shape) ].

(** The first exception the library raises for a builder, if any. *)
Fixpoint names_fault (w : World) (module : string) (names : list string)
    : option exn :=
  match names with
  | [] => None
  | n :: rest =>
      match import_fault w module n with
      | Some e => Some e
      | None => names_fault w module rest
      end
  end.

Fixpoint imports_fault (w : World) (imports : list (string * list string))
    : option exn :=
  match imports with
  | [] => None
  | (m, names) :: rest =>
      match names_fault w m names with
      | Some e => Some e
      | None => imports_fault w rest
      end
  end.

Definition shape_fault (w : World) (sh : Shape) : option exn :=
  match imports_fault w (sh_imports sh) with
  | Some e => Some e
  | None => diagram_fault w (sh_diagram sh)
  end.

(** The state a builder leaves behind when it succeeds: the image in the
    working directory and the success line on the console. *)
Definition after_success (w : World) (sh : Shape) (s : Proc) : Proc :=
  set_stdout (stdout s ++ [sh_done sh])
    (set_fs (<[cwd s ++ [png_name (sh_diagram sh)] :=
               EFile (encode_png w (sh_diagram sh))]> (fs s)) s).

(** The state a builder leaves behind when it catches [e]: the failure
    line on the console, nothing else. *)
Definition after_failure (sh : Shape) (e : exn) (s : Proc) : Proc :=
  set_stdout (stdout s ++ [sh_failed sh +:+ exn_text e]) s.

(** The library raises nothing for this builder. *)
Definition available (w : World) (sh : Shape) : Prop := shape_fault w sh = None.

(** Whatever the library raises for a builder is an instance of
    [Exception]. *)
Definition raises_only_Exception (w : World) : Prop :=
  forall name b sh e,
    In (name, b, sh) builders ->
    shape_fault w sh = Some e -> isinstance_Exception e = true.

(** The output directory of a run started in [inv]. *)
Definition output_dir (inv : list string) : list string := inv ++ diagrams_dir.

(** The file system a finished process leaves behind. *)
Definition fs_after (w : World) (inv : list string)
    (f : gmap (list string) entry) : gmap (list string) entry :=
  fs (snd (script w (start inv f []))).

(** The state once the module-level statements have run. *)
Definition after_load (p : Proc) : Proc :=
  set_sys_path (Path_str (cwd p) :: sys_path p) p.

(** The number of [True] entries of a results list. *)
Definition count_successes (results : list (string * bool)) : nat :=
  length (List.filter (fun x => snd x) results).

Definition status_line (x : string * bool) : string :=
  "  " +:+ fst x +:+ ": " +:+ (if snd x then "✅ SUCCESS" else "❌ FAILED").

(** The value of [list(rel.glob("*.png"))] in working directory [c]. *)
Definition glob_png (f : gmap (list string) entry) (c rel : list string)
    : list (list string) :=
  if is_dir f (c ++ rel)
  then map (fun k => rel ++ [Path_name k]) (png_children f (c ++ rel))
  else [].

Definition listing_lines (png_files : list (list string)) : list string :=
  match png_files with
  | [] => []
  | _ :: _ =>
      (nl +:+ "📄 Generated files:")
        :: map (fun file => "  - " +:+ Path_name file) png_files
  end.

(** Everything [report] prints, in order. *)
Definition report_lines (results : list (string * bool))
    (f : gmap (list string) entry) (c : list string) : list string :=
  [nl +:+ "📊 Generation Results:"]
  ++ map status_line results
  ++ [tally_line (count_successes results) (length results);
      saved_to_line (c ++ diagrams_dir)]
  ++ listing_lines (glob_png f c diagrams_dir).

(** [s1] differs from [s] in the file system at most. *)
Definition fs_only (s s1 : Proc) : Prop :=
  cwd s1 = cwd s /\ stdout s1 = stdout s /\
  sys_path s1 = sys_path s /\ chdir_log s1 = chdir_log s.

(** The images a sequence of builders writes in working directory [c]:
    one per builder the library raises nothing for, up to the first
    exception that is not caught. *)
Fixpoint writes (w : World) (c : list string) (shapes : list Shape)
    : list (list string * entry) :=
  match shapes with
  | [] => []
  | sh :: rest =>
      match shape_fault w sh with
      | None =>
          (c ++ [png_name (sh_diagram sh)], EFile (encode_png w (sh_diagram sh)))
            :: writes w c rest
      | Some e => if isinstance_Exception e then writes w c rest else []
      end
  end.

Fixpoint apply_writes (kvs : list (list string * entry))
    (f : gmap (list string) entry) : gmap (list string) entry :=
  match kvs with
  | [] => f
  | (k, v) :: rest => apply_writes rest (<[k := v]> f)
  end.

Definition shapes : list Shape := map snd builders.

(** The one line a builder prints when it returns. *)
Definition builder_line (w : World) (sh : Shape) : string :=
  match shape_fault w sh with
  | None => sh_done sh
  | Some e => sh_failed sh +:+ exn_text e
  end.

(** The four output paths of a run whose builders work in directory [c]. *)
Definition png_paths (c : list string) : list (list string) :=
  map (fun sh => c ++ [png_name (sh_diagram sh)]) shapes.

(** ** Names in a scene *)

(** The statements of a block in the order Python runs them, the body of a
    [with Cluster(...)] following its header; a [with] block opens no scope,
    so a name assigned inside it stays bound afterwards. *)
Fixpoint flatten_stmt (st : Stmt) : list Stmt :=
  match st with
  | Cluster text body => Cluster text [] :: flat_map flatten_stmt body
  | _ => [st]
  end.

Definition flatten (block : list Stmt) : list Stmt :=
  flat_map flatten_stmt block.

(** The variable a statement assigns. *)
Definition assigns (st : Stmt) : list string :=
  match st with
  | Node var _ _ => [var]
  | _ => []
  end.

(** The variables a statement reads. *)
Definition reads (st : Stmt) : list string :=
  match st with
  | Chain vars => vars
  | Via src _ dst => [src; dst]
  | Into _ dst => [dst]
  | _ => []
  end.

(** The class a statement instantiates. *)
Definition instantiates (st : Stmt) : list string :=
  match st with
  | Node _ icon _ => [icon]
  | Cluster _ _ => ["Cluster"]
  | Via _ _ _ | Into _ _ => ["Edge"]
  | Chain _ => []
  end.

Definition mem (x : string) (l : list string) : bool :=
  existsb (String.eqb x) l.

(** Every variable read by [prog] is in [env] or assigned earlier in
    [prog]. *)
Fixpoint names_bound (env : list string) (prog : list Stmt) : bool :=
  match prog with
  | [] => true
  | st :: rest =>
      forallb (fun v => mem v env) (reads st)
      && names_bound (assigns st ++ env) rest
  end.

(** The names a builder's import statements bind. *)
Definition imported (sh : Shape) : list string :=
  flat_map snd (sh_imports sh).

(** The classes a builder's [with Diagram(...)] block instantiates. *)
Definition classes_used (sh : Shape) : list string :=
  "Diagram" :: flat_map instantiates (flatten (scene (sh_diagram sh))).

(** Whether the library raised nothing for a builder. *)
Definition succeeds (w : World) (sh : Shape) : bool :=
  match shape_fault w sh with
  | None => true
  | Some _ => false
  end.

(** The builders that return, in order: all of them, or those before the
    first one that lets an exception through. *)
Fixpoint returned (w : World) (l : list Shape) : list Shape :=
  match l with
  | [] => []
  | sh :: rest =>
      match shape_fault w sh with
      | None => sh :: returned w rest
      | Some e => if isinstance_Exception e then sh :: returned w rest else []
      end
  end.

(** The results list [main] builds when every builder returns. *)
Definition results_of (w : World) : list (string * bool) :=
  map (fun x => (fst (fst x), succeeds w (snd x))) builders.

(** [f1] is [f] with some directories added at free paths. *)
Definition adds_dirs_only (f f1 : gmap (list string) entry) : Prop :=
  forall k, f1 !! k = f !! k \/ (f !! k = None /\ f1 !! k = Some EDir).

(** ** The script in an environment that can fail *)

(** The definitions above describe the script on a healthy machine: the
    console accepts every line, a directory that exists can be entered and
    searched, nobody interrupts the process, and the import system keeps
    no state.  The module [Full] embeds the same source without these
    assumptions.  Every call through which the script reaches outside
    itself is an [op]; before the call acts, the environment may raise an
    exception of any class in its place ([PermissionError] from
    [os.chdir], [BrokenPipeError] or [UnicodeEncodeError] from [print],
    [KeyboardInterrupt] anywhere).  The state also carries the keys of
    [sys.modules], which the import statements of the builders extend.
    The definitions of the first part are the case where the environment
    raises nothing outside the library (lemmas [healthy_main] and
    [healthy_script]). *)
Module Full.

Inductive op :=
| Print (line : string)              (* print(line) *)
| Mkdir (rel : list string)          (* os.mkdir(rel) *)
| IsDir (rel : list string)          (* rel.is_dir() *)
| Chdir (rel : list string)          (* os.chdir(rel) *)
| Getcwd                             (* os.getcwd() *)
| Glob (rel : list string)           (* rel.glob("*.png") *)
| ImportModule (module : string)     (* loading a module not yet loaded *)
| ImportName (module name : string)  (* from module import name *)
| Render (d : Diagram).              (* the with Diagram(...) block *)

Record State := mkState {
  proc : Proc;
  sys_modules : list string          (* the keys of sys.modules *)
}.

(** [fault s o] is the exception raised in place of the call [o] made in
    state [s], if any; [image d] is the bytes of the rendered diagram. *)
Record Env := mkEnv {
  fault : State -> op -> option exn;
  image : Diagram -> string
}.

Definition M (A : Type) : Type := State -> res A * State.

Definition ret {A} (a : A) : M A := fun s => (Ok a, s).

Definition raise {A} (e : exn) : M A := fun s => (Raise e, s).

Definition bind {A B} (c : M A) (k : A -> M B) : M B := fun s =>
  match c s with
  | (Ok a, s') => k a s'
  | (Raise e, s') => (Raise e, s')
  end.

Declare Scope full_scope.
Delimit Scope full_scope with full.
Notation "x <- c ;; k" := (bind c (fun x => k))
  (at level 100, c at next level, right associativity) : full_scope.
Notation "c ;; k" := (bind c (fun _ => k))
  (at level 100, right associativity) : full_scope.
Local Open Scope full_scope.

Definition try_except {A} (body : M A) (catches : exn -> bool)
    (handler : exn -> M A) : M A := fun s =>
  match body s with
  | (Ok a, s') => (Ok a, s')
  | (Raise e, s') => if catches e then handler e s' else (Raise e, s')
  end.

(** One call to the outside: the environment raises in its place, or the
    call acts on the process as [c] does. *)
Definition attempt {A} (env : Env) (o : op) (c : Proc -> res A * Proc)
    : M A := fun s =>
  match fault env s o with
  | Some x => (Raise x, s)
  | None => let (r, p) := c (proc s) in (r, mkState p (sys_modules s))
  end.

Definition print (env : Env) (line : string) : M unit :=
  attempt env (Print line) (print line).

Definition os_mkdir (env : Env) (rel : list string) : M unit :=
  attempt env (Mkdir rel) (os_mkdir rel).

Definition Path_is_dir (env : Env) (rel : list string) : M bool :=
  attempt env (IsDir rel) (Path_is_dir rel).

(** [rel.mkdir(parents=False, exist_ok=exist_ok)]: the clauses
    [except FileNotFoundError] and [except OSError] of [Path.mkdir]; an
    exception that is not an [OSError] passes through both, and [is_dir]
    is called only when [exist_ok] holds. *)
Definition Path_mkdir_leaf (env : Env) (rel : list string) (exist_ok : bool)
    : M unit :=
  try_except (os_mkdir env rel) isinstance_OSError (fun e =>
    if isinstance_FileNotFoundError e then raise e
    else if negb exist_ok then raise e
    else
      d <- Path_is_dir env rel;;
      if negb d then raise e else ret tt).

(** [rel.mkdir(parents=True, exist_ok=exist_ok)], by recursion on the
    reversed component list. *)
Fixpoint Path_mkdir_parents (env : Env) (rrel : list string) (exist_ok : bool)
    : M unit :=
  let rel := rev rrel in
  try_except (os_mkdir env rel) isinstance_OSError (fun e =>
    if isinstance_FileNotFoundError e then
      match rrel with
      | [] => raise e
      | _ :: rparent =>
          Path_mkdir_parents env rparent true;;
          Path_mkdir_leaf env rel exist_ok
      end
    else if negb exist_ok then raise e
    else
      d <- Path_is_dir env rel;;
      if negb d then raise e else ret tt).

Definition Path_mkdir (env : Env) (rel : list string) (parents exist_ok : bool)
    : M unit :=
  if parents then Path_mkdir_parents env (rev rel) exist_ok
  else Path_mkdir_leaf env rel exist_ok.

Definition os_chdir (env : Env) (rel : list string) : M unit :=
  attempt env (Chdir rel) (os_chdir rel).

Definition os_getcwd (env : Env) : M string :=
  attempt env Getcwd os_getcwd.

(** [rel.absolute()] asks for the working directory. *)
Definition Path_absolute (env : Env) (rel : list string) : M (list string) :=
  attempt env Getcwd (Path_absolute rel).

Definition Path_glob_png (env : Env) (rel : list string)
    : M (list (list string)) :=
  attempt env (Glob rel) (Path_glob_png rel).

(** The packages on the way to a dotted module name, the module itself
    last: [diagrams], [diagrams.aws], [diagrams.aws.compute]. *)
Fixpoint packages_from (seen rest : string) : list string :=
  match rest with
  | EmptyString => [seen]
  | String c rest' =>
      if Ascii.eqb c (Ascii.ascii_of_nat 46)
      then seen :: packages_from (seen +:+ String c EmptyString) rest'
      else packages_from (seen +:+ String c EmptyString) rest'
  end.

Definition packages (module : string) : list string := packages_from "" module.

(** Loading the modules of a list in order: one already in [sys.modules]
    is not loaded again; a module that loads is added to [sys.modules]. *)
Fixpoint load (env : Env) (modules : list string) : M unit :=
  match modules with
  | [] => ret tt
  | m :: rest =>
      (fun s =>
         if mem m (sys_modules s) then (Ok tt, s)
         else
           match fault env s (ImportModule m) with
           | Some x => (Raise x, s)
           | None => (Ok tt, mkState (proc s) (sys_modules s ++ [m]))
           end);;
      load env rest
  end.

Fixpoint import_names (env : Env) (module : string) (names : list string)
    : M unit :=
  match names with
  | [] => ret tt
  | n :: rest =>
      attempt env (ImportName module n) (fun p => (Ok tt, p));;
      import_names env module rest
  end.

(** [from module import n1, n2, ...]: the module is loaded, with the
    packages above it, then each name is looked up in it. *)
Definition from_import (env : Env) (module : string) (names : list string)
    : M unit :=
  load env (packages module);;
  import_names env module names.

(** Modelled from the spec: the [with Diagram(...)] block, as in the first
    part: the library raises, leaving no file, or writes one PNG named
    after the title into the working directory. *)
Definition with_Diagram (env : Env) (d : Diagram) : M unit :=
  attempt env (Render d) (fun p =>
    (Ok tt, set_fs (<[cwd p ++ [png_name d] := EFile (image env d)]> (fs p)) p)).

Definition generate_current_hobby_architecture (env : Env) : M bool :=
  try_except
    (from_import env "diagrams" ["Diagram"; "Cluster"; "Edge"];;
     from_import env "diagrams.aws.compute" ["ECS"; "EC2"];;
     from_import env "diagrams.aws.network" ["ELB"; "VPC"; "InternetGateway"; "NATGateway"];;
     from_import env "diagrams.aws.database" ["RDS"; "ElastiCache"];;
     from_import env "diagrams.aws.security" ["IAM"; "Cognito"];;
     from_import env "diagrams.aws.management" ["ParameterStore"];;
     from_import env "diagrams.aws.general" ["Users"];;
     with_Diagram env
       (mkDiagram "Current Hobby Deployment Architecture" false TB current_hobby_scene);;
     print env "✅ Generated: Current Hobby Deployment Architecture";;
     ret true)
    isinstance_Exception
    (fun e =>
       print env ("❌ Failed to generate current hobby architecture: " +:+ exn_text e);;
       ret false).

Definition generate_consolidated_architecture (env : Env) : M bool :=
  try_except
    (from_import env "diagrams" ["Diagram"; "Cluster"; "Edge"];;
     from_import env "diagrams.aws.compute" ["ECS"; "Fargate"];;
     from_import env "diagrams.aws.network" ["ELB"];;
     from_import env "diagrams.aws.security" ["IAM"; "Cognito"; "SecretsManager"];;
     from_import env "diagrams.aws.storage" ["S3"];;
     from_import env "diagrams.aws.management" ["Cloudwatch"];;
     from_import env "diagrams.onprem.database" ["PostgreSQL"];;
     from_import env "diagrams.onprem.inmemory" ["Redis"];;
     from_import env "diagrams.onprem.client" ["Users"];;
     with_Diagram env
       (mkDiagram "Consolidated ECS + External Services Architecture" false TB
          consolidated_scene);;
     print env "✅ Generated: Consolidated ECS + External Services Architecture";;
     ret true)
    isinstance_Exception
    (fun e =>
       print env ("❌ Failed to generate consolidated architecture: " +:+ exn_text e);;
       ret false).

Definition generate_future_scaling_architecture (env : Env) : M bool :=
  try_except
    (from_import env "diagrams" ["Diagram"; "Cluster"; "Edge"];;
     from_import env "diagrams.aws.compute" ["ECS"; "Fargate"];;
     from_import env "diagrams.aws.network" ["ELB"; "CloudFront"];;
     from_import env "diagrams.aws.security" ["WAF"; "Shield"];;
     from_import env "diagrams.aws.management" ["Cloudwatch"];;
     from_import env "diagrams.aws.storage" ["S3"];;
     from_import env "diagrams.onprem.database" ["PostgreSQL"];;
     from_import env "diagrams.onprem.inmemory" ["Redis"];;
     from_import env "diagrams.onprem.client" ["Users"];;
     with_Diagram env
       (mkDiagram "Future Scaling Architecture" false TB future_scaling_scene);;
     print env "✅ Generated: Future Scaling Architecture";;
     ret true)
    isinstance_Exception
    (fun e =>
       print env ("❌ Failed to generate future scaling architecture: " +:+ exn_text e);;
       ret false).

Definition generate_corrected_neon_branching (env : Env) : M bool :=
  try_except
    (from_import env "diagrams" ["Diagram"; "Cluster"; "Edge"];;
     from_import env "diagrams.onprem.database" ["PostgreSQL"];;
     from_import env "diagrams.aws.compute" ["ECS"; "Fargate"];;
     from_import env "diagrams.onprem.client" ["Client"];;
     from_import env "diagrams.generic.blank" ["Blank"];;
     with_Diagram env
       (mkDiagram "Corrected Neon Database Branching Strategy" false LR
          corrected_neon_scene);;
     print env "✅ Generated: Corrected Neon Database Branching Strategy";;
     ret true)
    isinstance_Exception
    (fun e =>
       print env ("❌ Failed to generate corrected Neon branching: " +:+ exn_text e);;
       ret false).

(** Lines 287-291. *)
Definition generate_all (env : Env) : M (list (string * bool)) :=
  let results := [] in
  r <- generate_current_hobby_architecture env;;
  let results := results ++ [("Current Hobby Architecture", r)] in
  r <- generate_consolidated_architecture env;;
  let results := results ++ [("Consolidated Architecture", r)] in
  r <- generate_future_scaling_architecture env;;
  let results := results ++ [("Future Scaling Architecture", r)] in
  r <- generate_corrected_neon_branching env;;
  let results := results ++ [("Corrected Neon Branching", r)] in
  ret results.

(** Lines 296-300. *)
Fixpoint results_loop (env : Env) (results : list (string * bool))
    (successful : nat) : M nat :=
  match results with
  | [] => ret successful
  | (name, success) :: rest =>
      let status := if success then "✅ SUCCESS" else "❌ FAILED" in
      print env ("  " +:+ name +:+ ": " +:+ status);;
      results_loop env rest (if success then successful + 1 else successful)
  end.

(** Lines 309-310. *)
Fixpoint files_loop (env : Env) (png_files : list (list string)) : M unit :=
  match png_files with
  | [] => ret tt
  | file :: rest => print env ("  - " +:+ Path_name file);; files_loop env rest
  end.

(** Lines 293-312. *)
Definition report (env : Env) (results : list (string * bool)) : M bool :=
  print env (nl +:+ "📊 Generation Results:");;
  successful <- results_loop env results 0;;
  print env (tally_line successful (length results));;
  a <- Path_absolute env diagrams_dir;;
  print env (saved_to_line a);;
  png_files <- Path_glob_png env diagrams_dir;;
  match png_files with
  | [] => ret tt
  | _ :: _ => print env (nl +:+ "📄 Generated files:");; files_loop env png_files
  end;;
  ret (successful =? length results)%nat.

(** Lines 277-284. *)
Definition prepare (env : Env) : M unit :=
  print env "🚀 Starting diagram generation...";;
  Path_mkdir env diagrams_dir true true;;
  os_chdir env diagrams_dir.

Definition main (env : Env) : M bool :=
  prepare env;;
  results <- generate_all env;;
  report env results.

(** Line 13: [sys.path.insert(0, os.getcwd())]. *)
Definition module_init (env : Env) : M unit :=
  c <- os_getcwd env;;
  fun s =>
    (Ok tt, mkState (set_sys_path (c :: sys_path (proc s)) (proc s))
                    (sys_modules s)).

(** Lines 314-316, after the module-level statements. *)
Definition script (env : Env) (s : State) : outcome * State :=
  match (module_init env;; main env) s with
  | (Ok success, s') => (Exited (if success then 0 else 1)%Z, s')
  | (Raise e, s') => (Uncaught e, s')
  end.

(** The [try] block and the [except] block of a builder of shape [sh]. *)
Fixpoint imports_then {A} (env : Env) (imports : list (string * list string))
    (k : M A) : M A :=
  match imports with
  | [] => k
  | (m, names) :: rest => from_import env m names;; imports_then env rest k
  end.

Definition body (env : Env) (sh : Shape) : M bool :=
  imports_then env (sh_imports sh)
    (with_Diagram env (sh_diagram sh);; print env (sh_done sh);; ret true).

Definition handler (env : Env) (sh : Shape) (e : exn) : M bool :=
  print env (sh_failed sh +:+ exn_text e);; ret false.

Definition build (env : Env) (sh : Shape) : M bool :=
  try_except (body env sh) isinstance_Exception (handler env sh).

(** The builders with the name each is reported under, in call order. *)
Definition builders : list (string * (Env -> M bool) * Shape) :=
  [ ("Current Hobby Architecture", generate_current_hobby_architecture, current_hobby_shape);
    ("Consolidated Architecture", generate_consolidated_architecture, consolidated_shape);
    ("Future Scaling Architecture", generate_future_scaling_architecture, future_scaling_shape);
    ("Corrected Neon Branching", generate_corrected_neon_branching, corrected_neon_shape) ].

(** The calls the builders make into the [diagrams] library. *)
Definition library_op (o : op) : bool :=
  match o with
  | ImportModule _ | ImportName _ _ | Render _ => true
  | _ => false
  end.

(** A process started in directory [inv] on file system [f], with nothing
    imported yet. *)
Definition start (inv : list string) (f : gmap (list string) entry) : State :=
  mkState (mkProc f inv [] [] []) [].

End Full.

(** ** Worlds and file systems used in the worked examples *)

Definition ideal_world : World :=
  mkWorld (fun _ _ => None) (fun _ => None) (fun d => "PNG of " +:+ title d).

Definition module_not_found : exn :=
  Exn (ExceptionSubclass "ModuleNotFoundError") "No module named 'diagrams'".

(** The [diagrams] package is not installed. *)
Definition no_library_world : World :=
  mkWorld (fun _ _ => Some module_not_found) (fun _ => None) (fun _ => "").

Definition keyboard_interrupt : exn :=
  Exn (BaseExceptionOnly "KeyboardInterrupt") "".

(** The user interrupts every rendering. *)
Definition interrupted_world : World :=
  mkWorld (fun _ _ => None) (fun _ => Some keyboard_interrupt) (fun _ => "").

(** Only the third diagram fails to render. *)
Definition flaky_world : World :=
  mkWorld (fun _ _ => None)
    (fun d => if String.eqb (title d) "Future Scaling Architecture"
              then Some (Exn (ExceptionSubclass "ExecutableNotFound")
                             "failed to execute dot")
              else None)
    (fun d => "PNG of " +:+ title d).

(** The user interrupts the rendering of the last diagram only. *)
Definition late_interrupt_world : World :=
  mkWorld (fun _ _ => None)
    (fun d => if String.eqb (title d) "Corrected Neon Database Branching Strategy"
              then Some keyboard_interrupt
              else None)
    (fun d => "PNG of " +:+ title d).



(** A project directory [/w] with nothing in it. *)
Definition empty_project : gmap (list string) entry :=
  <[ ["w"] := EDir ]> (<[ [] := EDir ]> ∅).

(** A project directory [/w] where [docs] is a regular file. *)
Definition blocked_project : gmap (list string) entry :=
  <[ ["w"; "docs"] := EFile "notes" ]> empty_project.

(** A project [/w] that holds its own files next to an older image. *)
Definition used_project : gmap (list string) entry :=
  <[ ["w"; "docs"; "diagrams"; "future_scaling_architecture.png"] := EFile "old" ]>
  (<[ ["w"; "docs"; "diagrams"; "notes.png"] := EFile "keep" ]>
  (<[ ["w"; "docs"; "diagrams"] := EDir ]>
  (<[ ["w"; "docs"; "README.md"] := EFile "readme" ]>
  (<[ ["w"; "docs"] := EDir ]> empty_project)))).

(** ** Environments *)

(** The environment of the first part: nothing but the library raises,
    and the library raises what the [World] says. *)
Definition healthy (w : World) : Full.Env :=
  Full.mkEnv
    (fun _ o =>
       match o with
       | Full.ImportName m n => import_fault w m n
       | Full.Render d => diagram_fault w d
       | _ => None
       end)
    (encode_png w).

(** The calls made by [Path.mkdir]. *)
Definition mkdir_op (o : Full.op) : bool :=
  match o with
  | Full.Mkdir _ | Full.IsDir _ => true
  | _ => false
  end.

(** The calls made by the summary. *)
Definition summary_op (o : Full.op) : bool :=
  match o with
  | Full.Print _ | Full.Getcwd | Full.Glob _ => true
  | _ => false
  end.

(** The environment raises nothing in place of the calls selected by
    [P]. *)
Definition quiet (env : Full.Env) (P : Full.op -> bool) : Prop :=
  forall s o, P o = true -> Full.fault env s o = None.

(** Nothing but the library raises, and it raises instances of
    [Exception] only. *)
Definition only_library_Exceptions (env : Full.Env) : Prop :=
  forall s o e,
    Full.fault env s o = Some e ->
    Full.library_op o = true /\ isinstance_Exception e = true.

(** [s1] has the working directory, the record of directory changes and
    [sys.path] of [s], and at least its modules. *)
Definition stays (s s1 : Full.State) : Prop :=
  cwd (Full.proc s1) = cwd (Full.proc s) /\
  chdir_log (Full.proc s1) = chdir_log (Full.proc s) /\
  sys_path (Full.proc s1) = sys_path (Full.proc s) /\
  incl (Full.sys_modules s) (Full.sys_modules s1).

(** [c'] returns what [c] returns and does to the process what [c]
    does. *)
Definition mirrors {A} (c' : Full.M A) (c : M A) : Prop :=
  forall s,
    fst (c' s) = fst (c (Full.proc s)) /\
    Full.proc (snd (c' s)) = snd (c (Full.proc s)).

Definition banner : string := "🚀 Starting diagram generation...".

Definition permission_denied : exn :=
  Exn (OSErrorSubclass "PermissionError")
      "[Errno 13] Permission denied: 'docs/diagrams'".

(** [docs/diagrams] may not be entered: its search permission is
    missing. *)
Definition locked_env : Full.Env :=
  Full.mkEnv
    (fun _ o =>
       match o with
       | Full.Chdir _ => Some permission_denied
       | _ => None
       end)
    (fun d => "PNG of " +:+ title d).




(** The user interrupts the process while the results header is
    printed. *)
Definition interrupted_summary_env : Full.Env :=
  Full.mkEnv
    (fun _ o =>
       match o with
       | Full.Print line =>
           if String.eqb line (nl +:+ "📊 Generation Results:")
           then Some keyboard_interrupt else None
       | _ => None
       end)
    (fun d => "PNG of " +:+ title d).


(** A step of the summary: whatever [c] returns, it leaves the file
    system, the working directory, [sys.path] and [sys.modules] alone, and
    what it raises was raised by the environment in one of the summary's
    calls. *)
Definition summary_step {A} (env : Full.Env) (c : Full.M A) : Prop :=
  forall s r s1,
    c s = (r, s1) ->
    fs (Full.proc s1) = fs (Full.proc s) /\
    stays s s1 /\
    Full.sys_modules s1 = Full.sys_modules s /\
    match r with
    | Ok _ => True
    | Raise x =>
        exists s0 o, summary_op o = true /\ Full.fault env s0 o = Some x
    end.

(** A step of the directory creation: it changes the file system at
    most. *)
Definition mkdir_step {A} (c : Full.M A) : Prop :=
  forall s r s1,
    c s = (r, s1) ->
    fs_only (Full.proc s) (Full.proc s1) /\
    Full.sys_modules s1 = Full.sys_modules s.

(** ** Facts about the monad and the primitives *)

Lemma shape_current_hobby w :
  generate_current_hobby_architecture w = build w current_hobby_shape.
Proof. reflexivity. Qed.

Lemma shape_consolidated w :
  generate_consolidated_architecture w = build w consolidated_shape.
Proof. reflexivity. Qed.

Lemma shape_future_scaling w :
  generate_future_scaling_architecture w = build w future_scaling_shape.
Proof. reflexivity. Qed.

Lemma shape_corrected_neon w :
  generate_corrected_neon_branching w = build w corrected_neon_shape.
Proof. reflexivity. Qed.

Lemma bind_run {A B} (c : M A) (k : A -> M B) s :
  bind c k s =
  match c s with
  | (Ok a, s') => k a s'
  | (Raise e, s') => (Raise e, s')
  end.
Proof. reflexivity. Qed.

Lemma bind_ok {A B} (c : M A) (k : A -> M B) s a s' :
  c s = (Ok a, s') -> bind c k s = k a s'.
Proof. intros H. unfold bind. now rewrite H. Qed.

Lemma bind_raise {A B} (c : M A) (k : A -> M B) s e s' :
  c s = (Raise e, s') -> bind c k s = (Raise e, s').
Proof. intros H. unfold bind. now rewrite H. Qed.

(** A run is determined by its result and the state it leaves. *)
Lemma run_eq {A} (x : res A * Proc) (r : res A) : fst x = r -> x = (r, snd x).
Proof. destruct x as [r' s']. cbn. now intros ->. Qed.

Lemma from_import_run w m names s :
  from_import w m names s =
  match names_fault w m names with
  | Some e => (Raise e, s)
  | None => (Ok tt, s)
  end.
Proof.
  induction names as [|n rest IH]; simpl; [reflexivity|].
  destruct (import_fault w m n); [reflexivity | exact IH].
Qed.

Lemma imports_then_run {A} w imports (k : M A) s :
  imports_then w imports k s =
  match imports_fault w imports with
  | Some e => (Raise e, s)
  | None => k s
  end.
Proof.
  induction imports as [|[m names] rest IH]; simpl; [reflexivity|].
  unfold bind. rewrite from_import_run.
  destruct (names_fault w m names); [reflexivity | exact IH].
Qed.

(** What a builder does, case by case on what the library raises. *)
Lemma build_run w sh s :
  build w sh s =
  match shape_fault w sh with
  | None => (Ok true, after_success w sh s)
  | Some e =>
      if isinstance_Exception e then (Ok false, after_failure sh e s)
      else (Raise e, s)
  end.
Proof.
  unfold build, try_except, shape_fault. rewrite imports_then_run.
  destruct (imports_fault w (sh_imports sh)) as [e|].
  - destruct (isinstance_Exception e); reflexivity.
  - unfold bind, with_Diagram.
    destruct (diagram_fault w (sh_diagram sh)) as [e|]; simpl.
    + destruct (isinstance_Exception e); reflexivity.
    + reflexivity.
Qed.


Lemma child_name_app dir name : child_name dir (dir ++ [name]) = Some name.
Proof.
  induction dir as [|d dir IH]; simpl; [reflexivity|].
  now rewrite String.eqb_refl.
Qed.

Lemma child_name_inv dir k name :
  child_name dir k = Some name -> k = dir ++ [name].
Proof.
  revert k. induction dir as [|d dir IH]; intros k; simpl.
  - destruct k as [|c [|c' k']]; intros H; inversion H; reflexivity.
  - destruct k as [|c k']; [discriminate|].
    destruct (String.eqb d c) eqn:E; [|discriminate].
    apply String.eqb_eq in E. subst c. intros H. now rewrite (IH _ H).
Qed.

(** The four file names, computed from the titles. *)
Lemma png_names :
  map (fun x => png_name (sh_diagram (snd x))) builders =
  [ "current_hobby_deployment_architecture.png";
    "consolidated_ecs_+_external_services_architecture.png";
    "future_scaling_architecture.png";
    "corrected_neon_database_branching_strategy.png" ].
Proof. reflexivity. Qed.

Lemma slug_char_not_space_nor_upper c :
  let n := Ascii.nat_of_ascii (slug_char c) in
  n <> 32 /\ ~ (65 <= n <= 90).
Proof.
  unfold slug_char.
  destruct (Nat.eqb_spec (Ascii.nat_of_ascii c) 32) as [E|E].
  - vm_compute. split; [discriminate | lia].
  - destruct (Nat.leb_spec 65 (Ascii.nat_of_ascii c)) as [L|L]; simpl.
    + destruct (Nat.leb_spec (Ascii.nat_of_ascii c) 90) as [U|U]; simpl.
      * rewrite Ascii.nat_ascii_embedding by lia. lia.
      * lia.
    + lia.
Qed.

(** A slug has the length of the title and holds neither a space nor an
    upper-case letter. *)
Lemma slug_spec t :
  String.length (slug t) = String.length t /\
  Forall (fun c => Ascii.nat_of_ascii c <> 32 /\
                   ~ (65 <= Ascii.nat_of_ascii c <= 90))
         (String.list_ascii_of_string (slug t)).
Proof.
  induction t as [|c t [IHl IHf]]; simpl.
  - split; [reflexivity | constructor].
  - split; [now rewrite IHl|].
    constructor; [apply slug_char_not_space_nor_upper | exact IHf].
Qed.

(** A builder leaves the working directory, [sys.path] and the record of
    directory changes alone, whatever the library does. *)
Lemma build_frame w sh s :
  let s' := snd (build w sh s) in
  cwd s' = cwd s /\ sys_path s' = sys_path s /\ chdir_log s' = chdir_log s.
Proof.
  rewrite build_run.
  destruct (shape_fault w sh) as [e|]; [destruct (isinstance_Exception e)|];
    simpl; auto.
Qed.

(** ** The builders *)



(** ** The summary *)

Lemma results_loop_run results n s :
  results_loop results n s =
  (Ok (n + count_successes results),
   set_stdout (stdout s ++ map status_line results) s).
Proof.
  revert n s. induction results as [|[name success] rest IH]; intros n s.
  - unfold count_successes. simpl. unfold ret.
    rewrite Nat.add_0_r, app_nil_r. now destruct s.
  - cbn [results_loop]. unfold bind, print. rewrite IH.
    unfold count_successes. cbn [List.filter snd map length set_stdout stdout fs cwd sys_path chdir_log].
    rewrite <- app_assoc. cbn [app].
    f_equal.
    + f_equal. destruct success; cbn [length]; lia.
Qed.

Lemma files_loop_run png_files s :
  files_loop png_files s =
  (Ok tt,
   set_stdout (stdout s ++ map (fun file => "  - " +:+ Path_name file) png_files) s).
Proof.
  revert s. induction png_files as [|file rest IH]; intros s.
  - simpl. unfold ret. rewrite app_nil_r. now destruct s.
  - cbn [files_loop]. unfold bind, print. rewrite IH.
    cbn [map set_stdout stdout fs cwd sys_path chdir_log].
    now rewrite <- app_assoc.
Qed.

Lemma Path_glob_png_run rel s :
  Path_glob_png rel s = (Ok (glob_png (fs s) (cwd s) rel), s).
Proof.
  unfold Path_glob_png, glob_png. now destruct (is_dir (fs s) (cwd s ++ rel)).
Qed.

(** On a healthy machine [report] prints [report_lines] and returns
    whether every entry succeeded. *)
Lemma report_run results s :
  report results s =
  (Ok (count_successes results =? length results)%nat,
   set_stdout (stdout s ++ report_lines results (fs s) (cwd s)) s).
Proof.
  unfold report, report_lines, bind, print.
  rewrite results_loop_run.
  cbn [Path_absolute set_stdout stdout fs cwd sys_path chdir_log Nat.add].
  rewrite Path_glob_png_run.
  cbn [set_stdout stdout fs cwd sys_path chdir_log].
  destruct (glob_png (fs s) (cwd s) diagrams_dir) as [|file rest] eqn:G.
  - unfold ret, set_stdout. cbn [listing_lines stdout fs cwd sys_path chdir_log].
    f_equal. f_equal. rewrite <- !app_assoc. cbn [app]. reflexivity.
  - rewrite files_loop_run. unfold ret, set_stdout.
    cbn [listing_lines stdout fs cwd sys_path chdir_log].
    f_equal. f_equal. rewrite <- !app_assoc. cbn [app]. reflexivity.
Qed.

Lemma count_successes_le results : count_successes results <= length results.
Proof. unfold count_successes. apply List.filter_length_le. Qed.

(** [successful == len(results)] holds exactly when every entry is [True]. *)
Lemma all_succeeded results :
  (count_successes results =? length results)%nat = forallb snd results.
Proof.
  induction results as [|[name success] rest IH]; [reflexivity|].
  unfold count_successes in *. cbn [List.filter snd forallb length].
  destruct success; cbn [length andb].
  - exact IH.
  - pose proof (List.filter_length_le (fun x => snd x) rest).
    apply Nat.eqb_neq. lia.
Qed.

(** ** Creating and entering the output directory *)

Lemma fs_only_refl s : fs_only s s.
Proof. unfold fs_only. auto. Qed.

Lemma fs_only_trans s s1 s2 : fs_only s s1 -> fs_only s1 s2 -> fs_only s s2.
Proof. unfold fs_only. intros (?&?&?&?) (?&?&?&?). repeat split; congruence. Qed.

Lemma fs_only_set_fs f s : fs_only s (set_fs f s).
Proof. unfold fs_only. auto. Qed.

Lemma is_dir_insert_dir f a k :
  is_dir f k = true -> is_dir (<[a := EDir]> f) k = true.
Proof.
  unfold is_dir. destruct (decide (a = k)) as [->|Hne].
  - now rewrite lookup_insert_eq.
  - now rewrite lookup_insert_ne.
Qed.

Lemma is_dir_is_Some f k : is_dir f k = true -> is_Some (f !! k).
Proof. unfold is_dir. destruct (f !! k); [eauto | discriminate]. Qed.

(** [os.mkdir] either adds one directory or raises and changes nothing. *)
Lemma os_mkdir_effect rel s r s1 :
  os_mkdir rel s = (r, s1) ->
  match r with
  | Ok _ => s1 = set_fs (<[cwd s ++ rel := EDir]> (fs s)) s
  | Raise _ => s1 = s
  end.
Proof.
  unfold os_mkdir. destruct rel as [|x l].
  - destruct (fs s !! (cwd s ++ [])); intros H; now inversion H.
  - cbn zeta.
    destruct (fs s !! removelast (cwd s ++ x :: l)) as [[|c]|];
      [destruct (fs s !! (cwd s ++ x :: l))|..]; intros H; now inversion H.
Qed.

(** With a path that has a name, [os.mkdir] succeeds exactly on a free name
    in an existing directory, and raises [FileNotFoundError] exactly when
    the parent is missing. *)
Lemma os_mkdir_parent rel s r s1 :
  rel <> [] ->
  os_mkdir rel s = (r, s1) ->
  let a := cwd s ++ rel in
  match r with
  | Ok _ => is_dir (fs s) (removelast a) = true /\ fs s !! a = None
  | Raise e =>
      if isinstance_FileNotFoundError e
      then fs s !! removelast a = None
      else is_Some (fs s !! removelast a)
  end.
Proof.
  intros Hrel. unfold os_mkdir, is_dir.
  destruct rel as [|x l]; [contradiction|].
  cbn zeta.
  destruct (fs s !! removelast (cwd s ++ x :: l)) as [[|c]|] eqn:P;
    [destruct (fs s !! (cwd s ++ x :: l)) eqn:Q|..];
    intros H; inversion H; subst; cbn; eauto.
Qed.

Lemma Path_mkdir_leaf_post rel exist_ok s s1 :
  rel <> [] ->
  Path_mkdir_leaf rel exist_ok s = (Ok tt, s1) ->
  fs_only s s1 /\
  is_Some (fs s1 !! removelast (cwd s ++ rel)) /\
  is_dir (fs s1) (cwd s ++ rel) = true.
Proof.
  intros Hrel. unfold Path_mkdir_leaf, try_except.
  destruct (os_mkdir rel s) as [[[]|e] s'] eqn:E.
  - pose proof (os_mkdir_effect _ _ _ _ E) as Heff. cbn in Heff.
    pose proof (os_mkdir_parent _ _ _ _ Hrel E) as Hp. cbn beta iota zeta in Hp. destruct Hp as [Hp _].
    intros H. inversion H; subst s1 s'. split; [apply fs_only_set_fs|].
    cbn [fs set_fs]. split.
    + apply is_dir_is_Some. now apply is_dir_insert_dir.
    + unfold is_dir. now rewrite lookup_insert_eq.
  - pose proof (os_mkdir_effect _ _ _ _ E) as Heff. cbn in Heff. subst s'.
    pose proof (os_mkdir_parent _ _ _ _ Hrel E) as Hp. cbn beta iota zeta in Hp.
    destruct (isinstance_FileNotFoundError e); [discriminate|].
    unfold bind, Path_is_dir.
    destruct (is_dir (fs s) (cwd s ++ rel)) eqn:D;
      destruct exist_ok; cbn; try discriminate.
    intros H. inversion H; subst s1. split; [apply fs_only_refl|]. auto.
Qed.

Lemma Path_mkdir_leaf_frame rel exist_ok s r s1 :
  Path_mkdir_leaf rel exist_ok s = (r, s1) -> fs_only s s1.
Proof.
  unfold Path_mkdir_leaf, try_except.
  destruct (os_mkdir rel s) as [[[]|e] s'] eqn:E;
    pose proof (os_mkdir_effect _ _ _ _ E) as Heff; cbn in Heff; subst s'.
  - intros H. inversion H. apply fs_only_set_fs.
  - destruct (isinstance_FileNotFoundError e).
    + intros H. inversion H. apply fs_only_refl.
    + unfold bind, Path_is_dir.
      destruct (negb exist_ok || negb (is_dir (fs s) (cwd s ++ rel)));
        intros H; inversion H; apply fs_only_refl.
Qed.

(** Making directories touches the file system only. *)
Lemma Path_mkdir_parents_frame rrel exist_ok s r s1 :
  Path_mkdir_parents rrel exist_ok s = (r, s1) -> fs_only s s1.
Proof.
  revert exist_ok s r s1.
  induction rrel as [|x rparent IH]; intros exist_ok s r s1;
    cbn [Path_mkdir_parents]; unfold try_except;
    destruct (os_mkdir _ s) as [[[]|e] s'] eqn:E;
    pose proof (os_mkdir_effect _ _ _ _ E) as Heff; cbn in Heff; subst s';
    try (intros H; inversion H; apply fs_only_set_fs).
  - destruct (isinstance_FileNotFoundError e).
    + intros H. inversion H. apply fs_only_refl.
    + unfold bind, Path_is_dir.
      destruct (negb exist_ok || negb _); intros H; inversion H;
        apply fs_only_refl.
  - destruct (isinstance_FileNotFoundError e).
    + unfold bind.
      destruct (Path_mkdir_parents rparent true s) as [[[]|e'] s'] eqn:R.
      * intros H. eapply fs_only_trans; [eapply IH; exact R|].
        eapply Path_mkdir_leaf_frame; exact H.
      * intros H. inversion H; subst. eapply IH; exact R.
    + unfold bind, Path_is_dir.
      destruct (negb exist_ok || negb _); intros H; inversion H;
        apply fs_only_refl.
Qed.

(** When [docs/diagrams] is made without an exception, it is a directory
    afterwards and its parent exists. *)
Lemma Path_mkdir_diagrams_dir_post s s1 :
  Path_mkdir diagrams_dir true true s = (Ok tt, s1) ->
  fs_only s s1 /\
  is_Some (fs s1 !! (cwd s ++ ["docs"])) /\
  is_dir (fs s1) (cwd s ++ diagrams_dir) = true.
Proof.
  intros H. split; [eapply Path_mkdir_parents_frame; exact H|].
  revert H. unfold Path_mkdir. cbn [rev app diagrams_dir Path_mkdir_parents].
  unfold try_except at 1.
  assert (Hrel : ["docs"; "diagrams"] <> ([] : list string)) by discriminate.
  assert (Hpar : removelast (cwd s ++ ["docs"; "diagrams"]) = cwd s ++ ["docs"]).
  { rewrite removelast_app by discriminate. reflexivity. }
  destruct (os_mkdir ["docs"; "diagrams"] s) as [[[]|e] s'] eqn:E;
    pose proof (os_mkdir_effect _ _ _ _ E) as Heff; cbn in Heff; subst s';
    pose proof (os_mkdir_parent _ _ _ _ Hrel E) as Hp; cbn beta iota zeta in Hp;
    rewrite Hpar in Hp.
  - destruct Hp as [Hp _]. intros H. inversion H; subst s1. cbn [fs set_fs]. split.
    + apply is_dir_is_Some. now apply is_dir_insert_dir.
    + unfold is_dir. now rewrite lookup_insert_eq.
  - destruct (isinstance_FileNotFoundError e).
    + unfold bind.
      destruct (try_except (os_mkdir ["docs"]) _ _ s) as [[[]|e'] s'] eqn:R;
        [|discriminate].
      assert (Hfr : fs_only s s').
      { eapply (Path_mkdir_parents_frame ["docs"] true). exact R. }
      intros H. destruct (Path_mkdir_leaf_post _ _ _ _ Hrel H) as (_ & H1 & H2).
      destruct Hfr as (Hc & _). rewrite Hc, Hpar in H1. rewrite Hc in H2. auto.
    + unfold bind, Path_is_dir.
      destruct (is_dir (fs s) (cwd s ++ ["docs"; "diagrams"])) eqn:D;
        cbn; [|discriminate].
      intros H. inversion H; subst s1. auto.
Qed.

(** Making [docs/diagrams] changes nothing when it is already there. *)
Lemma Path_mkdir_diagrams_dir_exists s :
  is_Some (fs s !! (cwd s ++ ["docs"])) ->
  is_dir (fs s) (cwd s ++ diagrams_dir) = true ->
  Path_mkdir diagrams_dir true true s = (Ok tt, s).
Proof.
  intros Hp Hd. unfold Path_mkdir.
  cbn [rev app diagrams_dir Path_mkdir_parents]. unfold try_except at 1.
  assert (Hrel : ["docs"; "diagrams"] <> ([] : list string)) by discriminate.
  assert (Hpar : removelast (cwd s ++ ["docs"; "diagrams"]) = cwd s ++ ["docs"]).
  { rewrite removelast_app by discriminate. reflexivity. }
  unfold diagrams_dir in Hd.
  destruct (os_mkdir ["docs"; "diagrams"] s) as [[[]|e] s'] eqn:E;
    pose proof (os_mkdir_effect _ _ _ _ E) as Heff; cbn in Heff; subst s';
    pose proof (os_mkdir_parent _ _ _ _ Hrel E) as Hq; cbn beta iota zeta in Hq;
    rewrite Hpar in Hq.
  - destruct Hq as [_ Hq]. unfold is_dir in Hd. rewrite Hq in Hd. discriminate.
  - destruct (isinstance_FileNotFoundError e).
    + rewrite Hq in Hp. destruct Hp as [? Hp]. discriminate.
    + unfold bind, Path_is_dir. rewrite Hd. reflexivity.
Qed.





(** On a healthy machine [prepare] is the banner followed by the
    directory creation: a directory that is there can be entered. *)
Lemma prepare_run s :
  prepare s =
  match Path_mkdir diagrams_dir true true
          (set_stdout (stdout s ++ ["🚀 Starting diagram generation..."]) s) with
  | (Ok _, s1) => (Ok tt, enter_dir (cwd s ++ diagrams_dir) s1)
  | (Raise e, s1) => (Raise e, s1)
  end.
Proof.
  unfold prepare, bind, print.
  destruct (Path_mkdir diagrams_dir true true _) as [[[]|e] s1] eqn:E;
    [|reflexivity].
  destruct (Path_mkdir_diagrams_dir_post _ _ E) as ((Hc & _) & _ & Hd).
  cbn [cwd set_stdout] in Hc, Hd.
  unfold os_chdir. rewrite Hc. unfold is_dir in Hd.
  destruct (fs s1 !! (cwd s ++ diagrams_dir)) as [[|c]|]; try discriminate.
  reflexivity.
Qed.

Lemma prepare_ok s s0 :
  prepare s = (Ok tt, s0) ->
  cwd s0 = cwd s ++ diagrams_dir /\
  chdir_log s0 = chdir_log s ++ [cwd s ++ diagrams_dir] /\
  sys_path s0 = sys_path s /\
  stdout s0 = stdout s ++ ["🚀 Starting diagram generation..."] /\
  is_Some (fs s0 !! (cwd s ++ ["docs"])) /\
  is_dir (fs s0) (cwd s ++ diagrams_dir) = true.
Proof.
  rewrite prepare_run.
  destruct (Path_mkdir diagrams_dir true true _) as [[[]|e] s1] eqn:E;
    [|discriminate].
  destruct (Path_mkdir_diagrams_dir_post _ _ E) as ((Hc & Ho & Hp & Hl) & Hs & Hd).
  intros H. inversion H; subst s0.
  cbn [cwd stdout sys_path chdir_log fs set_stdout enter_dir] in *.
  rewrite Ho, Hp, Hl. auto 10.
Qed.

Lemma prepare_raise s e s1 :
  prepare s = (Raise e, s1) ->
  Path_mkdir diagrams_dir true true
    (set_stdout (stdout s ++ ["🚀 Starting diagram generation..."]) s)
    = (Raise e, s1) /\
  cwd s1 = cwd s /\ chdir_log s1 = chdir_log s /\ sys_path s1 = sys_path s /\
  stdout s1 = stdout s ++ ["🚀 Starting diagram generation..."].
Proof.
  rewrite prepare_run.
  destruct (Path_mkdir diagrams_dir true true _) as [[[]|e'] s'] eqn:E;
    [discriminate|].
  intros H. inversion H; subst e' s'. split; [reflexivity|].
  destruct (Path_mkdir_parents_frame _ _ _ _ _ E) as (Hc & Ho & Hp & Hl).
  cbn [cwd stdout sys_path chdir_log fs set_stdout] in *. auto.
Qed.

(** ** Running the builders *)

Lemma generate_all_builds w :
  generate_all w =
  (r1 <- build w current_hobby_shape;;
   r2 <- build w consolidated_shape;;
   r3 <- build w future_scaling_shape;;
   r4 <- build w corrected_neon_shape;;
   ret [ ("Current Hobby Architecture", r1);
         ("Consolidated Architecture", r2);
         ("Future Scaling Architecture", r3);
         ("Corrected Neon Branching", r4) ]).
Proof. reflexivity. Qed.

Lemma generate_all_ok w s0 r1 s1 r2 s2 r3 s3 r4 s4 :
  generate_current_hobby_architecture w s0 = (Ok r1, s1) ->
  generate_consolidated_architecture w s1 = (Ok r2, s2) ->
  generate_future_scaling_architecture w s2 = (Ok r3, s3) ->
  generate_corrected_neon_branching w s3 = (Ok r4, s4) ->
  generate_all w s0 =
  (Ok [ ("Current Hobby Architecture", r1);
        ("Consolidated Architecture", r2);
        ("Future Scaling Architecture", r3);
        ("Corrected Neon Branching", r4) ], s4).
Proof.
  intros H1 H2 H3 H4. unfold generate_all, bind.
  rewrite H1, H2, H3, H4. reflexivity.
Qed.

Lemma generate_all_inv w s0 results s4 :
  generate_all w s0 = (Ok results, s4) ->
  exists r1 s1 r2 s2 r3 s3 r4,
    generate_current_hobby_architecture w s0 = (Ok r1, s1) /\
    generate_consolidated_architecture w s1 = (Ok r2, s2) /\
    generate_future_scaling_architecture w s2 = (Ok r3, s3) /\
    generate_corrected_neon_branching w s3 = (Ok r4, s4) /\
    results = [ ("Current Hobby Architecture", r1);
                ("Consolidated Architecture", r2);
                ("Future Scaling Architecture", r3);
                ("Corrected Neon Branching", r4) ].
Proof.
  unfold generate_all, bind.
  destruct (generate_current_hobby_architecture w s0) as [[r1|e] s1] eqn:E1;
    [|discriminate].
  destruct (generate_consolidated_architecture w s1) as [[r2|e] s2] eqn:E2;
    [|discriminate].
  destruct (generate_future_scaling_architecture w s2) as [[r3|e] s3] eqn:E3;
    [|discriminate].
  destruct (generate_corrected_neon_branching w s3) as [[r4|e] s4'] eqn:E4;
    [|discriminate].
  intros H. inversion H; subst. exists r1, s1, r2, s2, r3, s3, r4. auto 10.
Qed.

Lemma main_run w s :
  main w s =
  match prepare s with
  | (Ok _, s0) =>
      match generate_all w s0 with
      | (Ok results, s1) => report results s1
      | (Raise e, s1) => (Raise e, s1)
      end
  | (Raise e, s1) => (Raise e, s1)
  end.
Proof.
  unfold main, bind. destruct (prepare s) as [[[]|e] s0]; reflexivity.
Qed.

Lemma script_run w p :
  script w p =
  match main w (after_load p) with
  | (Ok success, s') => (Exited (if success then 0 else 1)%Z, s')
  | (Raise e, s') => (Uncaught e, s')
  end.
Proof. reflexivity. Qed.

Ltac step_build w sh :=
  rewrite (build_run w sh);
  let e := fresh "e" in
  let F := fresh "F" in
  let I := fresh "I" in
  destruct (shape_fault w sh) as [e|] eqn:F;
    [destruct (isinstance_Exception e) eqn:I|];
  cbn beta iota.

(** What the four calls leave behind: the images of [writes], and nothing
    else but console lines.  They return four results, or stop at the first
    exception that is not an instance of [Exception]. *)
Lemma generate_all_effect w s r s' :
  generate_all w s = (r, s') ->
  cwd s' = cwd s /\ sys_path s' = sys_path s /\ chdir_log s' = chdir_log s /\
  fs s' = apply_writes (writes w (cwd s) shapes) (fs s) /\
  match r with
  | Ok results => length results = 4
  | Raise e =>
      isinstance_Exception e = false /\
      exists sh, In sh shapes /\ shape_fault w sh = Some e
  end.
Proof.
  rewrite generate_all_builds. unfold shapes, bind.
  cbn [map snd builders writes].
  step_build w current_hobby_shape;
  try (step_build w consolidated_shape;
       try (step_build w future_scaling_shape;
            try step_build w corrected_neon_shape));
  intros H; inversion H; subst r s';
  cbn [cwd sys_path chdir_log fs after_success after_failure set_stdout
       set_fs apply_writes length];
  (split; [reflexivity|]); (split; [reflexivity|]); (split; [reflexivity|]);
  (split; [reflexivity|]);
  try reflexivity;
  (split; [assumption|]);
  eexists; (split; [|eassumption]); cbn; auto.
Qed.

(** ** Sequences of writes *)

Lemma apply_writes_union (kvs : list (list string * entry))
    (f : gmap (list string) entry) :
  apply_writes kvs f = apply_writes kvs ∅ ∪ f.
Proof.
  revert f. induction kvs as [|[k v] rest IH]; intros f; cbn [apply_writes].
  - now rewrite (left_id_L ∅ (∪)).
  - rewrite (IH (<[k := v]> f)), (IH (<[k := v]> ∅)).
    rewrite insert_empty, <- (assoc_L (∪)).
    now rewrite <- insert_union_singleton_l.
Qed.

(** Writing the same files twice is the same as writing them once. *)
Lemma apply_writes_twice (kvs : list (list string * entry))
    (f : gmap (list string) entry) :
  apply_writes kvs (apply_writes kvs f) = apply_writes kvs f.
Proof.
  rewrite (apply_writes_union kvs (apply_writes kvs f)).
  rewrite (apply_writes_union kvs f).
  now rewrite (assoc_L (∪)), (idemp_L (∪)).
Qed.

Lemma apply_writes_other (kvs : list (list string * entry))
    (f : gmap (list string) entry) k :
  Forall (fun kv => fst kv <> k) kvs ->
  apply_writes kvs f !! k = f !! k.
Proof.
  revert f. induction kvs as [|[k' v] rest IH]; intros f H; [reflexivity|].
  inversion H; subst. cbn [apply_writes]. rewrite IH by assumption.
  now apply lookup_insert_ne.
Qed.

(** Every file of [writes] is a direct child of the working directory. *)
Lemma writes_children w c l :
  Forall (fun kv => exists name, fst kv = c ++ [name]) (writes w c l).
Proof.
  induction l as [|sh rest IH]; cbn [writes]; [constructor|].
  destruct (shape_fault w sh) as [e|].
  - destruct (isinstance_Exception e); [exact IH | constructor].
  - constructor; [eexists; reflexivity | exact IH].
Qed.

Lemma writes_miss w c l k :
  (forall name, k <> c ++ [name]) ->
  Forall (fun kv => fst kv <> k) (writes w c l).
Proof.
  intros Hk. eapply Forall_impl; [apply writes_children|].
  intros kv [name Hn] Heq. apply (Hk name). congruence.
Qed.

Lemma child_not_self (c : list string) (name : string) : c <> c ++ [name].
Proof.
  intros H. apply (f_equal (@length string)) in H.
  rewrite length_app in H. cbn in H. lia.
Qed.

Lemma docs_not_png (c : list string) (name : string) :
  c ++ ["docs"] <> (c ++ diagrams_dir) ++ [name].
Proof.
  rewrite <- app_assoc. intros H. apply app_inv_head in H. discriminate.
Qed.

(** When every builder is available, the writes are the four images. *)
Lemma writes_available w c :
  (forall sh, In sh shapes -> available w sh) ->
  writes w c shapes =
  map (fun sh => (c ++ [png_name (sh_diagram sh)],
                  EFile (encode_png w (sh_diagram sh)))) shapes.
Proof.
  intros Hav. unfold shapes in *. cbn [map snd builders] in *.
  cbn [writes].
  rewrite (Hav current_hobby_shape), (Hav consolidated_shape),
    (Hav future_scaling_shape), (Hav corrected_neon_shape);
    cbn [In]; auto 10.
Qed.

(** The file system [main] leaves behind once [prepare] has succeeded. *)
Lemma main_fs w s s0 :
  prepare s = (Ok tt, s0) ->
  fs (snd (main w s)) =
    apply_writes (writes w (cwd s ++ diagrams_dir) shapes) (fs s0) /\
  cwd (snd (main w s)) = cwd s ++ diagrams_dir.
Proof.
  intros Hp. rewrite main_run, Hp.
  destruct (prepare_ok _ _ Hp) as (Hc & _).
  destruct (generate_all w s0) as [r s1] eqn:G.
  destruct (generate_all_effect _ _ _ _ G) as (Hc1 & _ & _ & Hf & _).
  rewrite Hc in Hf, Hc1.
  destruct r as [results|e]; [rewrite report_run|]; cbn [snd fs cwd set_stdout]; auto.
Qed.

Lemma build_ok_line w sh s r s1 :
  build w sh s = (Ok r, s1) ->
  stdout s1 = stdout s ++ [builder_line w sh] /\
  r = match shape_fault w sh with None => true | Some _ => false end.
Proof.
  rewrite build_run. unfold builder_line.
  destruct (shape_fault w sh) as [e|];
    [destruct (isinstance_Exception e)|];
    intros H; inversion H; subst; auto.
Qed.

Lemma generate_all_total w s :
  raises_only_Exception w ->
  exists results s', generate_all w s = (Ok results, s').
Proof.
  intros Hw. destruct (generate_all w s) as [[results|e] s'] eqn:G; [eauto|].
  destruct (generate_all_effect _ _ _ _ G) as (_ & _ & _ & _ & Hi & sh & Hin & Hf).
  unfold shapes in Hin. apply in_map_iff in Hin as [[[name b] sh'] [Hs Hin]].
  cbn in Hs. subst sh'. rewrite (Hw _ _ _ _ Hin Hf) in Hi. discriminate.
Qed.

(** ** The orchestrator *)



(** C4: after the results header and the four status lines the summary
    prints the tally line, which reads "Generated k/4 diagrams
    successfully" where k is the number of [True] entries of the results
    list; the list has four entries, so k is one of 0, 1, 2, 3, 4 and the
    total is always 4. *)
Theorem tally_counts_successes w s s0 results s1 :
  prepare s = (Ok tt, s0) ->
  generate_all w s0 = (Ok results, s1) ->
  let k := length (List.filter (fun x => snd x) results) in
  exists b s2 rest,
    main w s = (Ok b, s2) /\
    length results = 4 /\
    k <= 4 /\
    stdout s2 =
      stdout s1
      ++ [nl +:+ "📊 Generation Results:"]
      ++ map (fun x : string * bool => "  " +:+ fst x +:+ ": "
                       +:+ (if snd x then "✅ SUCCESS" else "❌ FAILED"))
             results
      ++ [nl +:+ "📁 Generated " +:+ nth k ["0"; "1"; "2"; "3"; "4"] ""
             +:+ "/4 diagrams successfully"]
      ++ rest.
Proof.
  intros Hp G k.
  destruct (generate_all_effect _ _ _ _ G) as (_ & _ & _ & _ & Hlen).
  pose proof (count_successes_le results) as Hle.
  fold (count_successes results) in k.
  assert (Hk : k <= 4) by (subst k; lia).
  eexists _, _, _. rewrite main_run, Hp, G, report_run.
  split; [reflexivity|]. split; [exact Hlen|]. split; [exact Hk|].
  cbn [stdout set_stdout]. unfold report_lines. rewrite Hlen.
  fold k. cbn [app]. do 3 f_equal.
  change (tally_line k 4 :: saved_to_line (cwd s1 ++ diagrams_dir)
            :: listing_lines (glob_png (fs s1) (cwd s1) diagrams_dir))
    with ([tally_line k 4]
            ++ saved_to_line (cwd s1 ++ diagrams_dir)
                 :: listing_lines (glob_png (fs s1) (cwd s1) diagrams_dir)).
  f_equal. f_equal.
  do 5 (destruct k as [|k]; [reflexivity|]). lia.
Qed.

Lemma tally_counts_successes_witness :
  exists b s2 rest,
    main flaky_world (after_load (start ["w"] empty_project [])) = (Ok b, s2) /\
    stdout s2 =
      [ "🚀 Starting diagram generation...";
        "✅ Generated: Current Hobby Deployment Architecture";
        "✅ Generated: Consolidated ECS + External Services Architecture";
        "❌ Failed to generate future scaling architecture: failed to execute dot";
        "✅ Generated: Corrected Neon Database Branching Strategy";
        nl +:+ "📊 Generation Results:";
        "  Current Hobby Architecture: ✅ SUCCESS";
        "  Consolidated Architecture: ✅ SUCCESS";
        "  Future Scaling Architecture: ❌ FAILED";
        "  Corrected Neon Branching: ✅ SUCCESS";
        nl +:+ "📁 Generated 3/4 diagrams successfully" ] ++ rest.
Proof.
  assert (H1 : fst (prepare (after_load (start ["w"] empty_project [])))
               = Ok tt) by (vm_compute; reflexivity).
  assert (H2 : fst (generate_all flaky_world
                      (snd (prepare (after_load (start ["w"] empty_project [])))))
               = Ok [ ("Current Hobby Architecture", true);
                      ("Consolidated Architecture", true);
                      ("Future Scaling Architecture", false);
                      ("Corrected Neon Branching", true) ])
    by (vm_compute; reflexivity).
  pose proof (tally_counts_successes _ _ _ _ _ (run_eq _ _ H1) (run_eq _ _ H2))
    as (b & s2 & rest & H & _ & _ & Hout).
  exists b, s2, rest. split; [exact H|].
  rewrite Hout.
  assert (H3 : stdout (snd (generate_all flaky_world
                 (snd (prepare (after_load (start ["w"] empty_project []))))))
               = [ "🚀 Starting diagram generation...";
        "✅ Generated: Current Hobby Deployment Architecture";
        "✅ Generated: Consolidated ECS + External Services Architecture";
        "❌ Failed to generate future scaling architecture: failed to execute dot";
        "✅ Generated: Corrected Neon Database Branching Strategy" ])
    by (vm_compute; reflexivity).
  rewrite H3. reflexivity.
Defined.

(** C8: the four builders run in the order current hobby, consolidated,
    future scaling, corrected Neon branching, each on the state the previous
    one left, and their results are collected as exactly four
    (name, success) pairs in that order; the console shows one line per
    builder in the same order. *)
Theorem builders_run_in_fixed_order w s0 r1 s1 r2 s2 r3 s3 r4 s4 :
  generate_current_hobby_architecture w s0 = (Ok r1, s1) ->
  generate_consolidated_architecture w s1 = (Ok r2, s2) ->
  generate_future_scaling_architecture w s2 = (Ok r3, s3) ->
  generate_corrected_neon_branching w s3 = (Ok r4, s4) ->
  generate_all w s0 =
    (Ok [ ("Current Hobby Architecture", r1);
          ("Consolidated Architecture", r2);
          ("Future Scaling Architecture", r3);
          ("Corrected Neon Branching", r4) ], s4) /\
  stdout s4 = stdout s0 ++ [ builder_line w current_hobby_shape;
                             builder_line w consolidated_shape;
                             builder_line w future_scaling_shape;
                             builder_line w corrected_neon_shape ] /\
  (forall results s', generate_all w s0 = (Ok results, s') ->
     length results = 4 /\
     map fst results = map (fun x => fst (fst x)) builders).
Proof.
  intros H1 H2 H3 H4.
  pose proof (generate_all_ok _ _ _ _ _ _ _ _ _ _ H1 H2 H3 H4) as G.
  split; [exact G|]. split.
  - rewrite shape_current_hobby in H1. rewrite shape_consolidated in H2.
    rewrite shape_future_scaling in H3. rewrite shape_corrected_neon in H4.
    apply build_ok_line in H1 as [E1 _]. apply build_ok_line in H2 as [E2 _].
    apply build_ok_line in H3 as [E3 _]. apply build_ok_line in H4 as [E4 _].
    rewrite E4, E3, E2, E1. rewrite <- !app_assoc. reflexivity.
  - intros results s' G'. rewrite G in G'. inversion G'; subst.
    split; reflexivity.
Qed.

Lemma builders_run_in_fixed_order_witness :
  exists s4,
    generate_all flaky_world (start ["w"] empty_project []) =
    (Ok [ ("Current Hobby Architecture", true);
          ("Consolidated Architecture", true);
          ("Future Scaling Architecture", false);
          ("Corrected Neon Branching", true) ], s4).
Proof.
  pose (s0 := start ["w"] empty_project []).
  pose (s1 := snd (generate_current_hobby_architecture flaky_world s0)).
  pose (s2 := snd (generate_consolidated_architecture flaky_world s1)).
  pose (s3 := snd (generate_future_scaling_architecture flaky_world s2)).
  pose (s4 := snd (generate_corrected_neon_branching flaky_world s3)).
  assert (E1 : generate_current_hobby_architecture flaky_world s0 = (Ok true, s1))
    by (apply run_eq; vm_compute; reflexivity).
  assert (E2 : generate_consolidated_architecture flaky_world s1 = (Ok true, s2))
    by (apply run_eq; vm_compute; reflexivity).
  assert (E3 : generate_future_scaling_architecture flaky_world s2 = (Ok false, s3))
    by (apply run_eq; vm_compute; reflexivity).
  assert (E4 : generate_corrected_neon_branching flaky_world s3 = (Ok true, s4))
    by (apply run_eq; vm_compute; reflexivity).
  exists s4.
  exact (proj1 (builders_run_in_fixed_order _ _ _ _ _ _ _ _ _ _ E1 E2 E3 E4)).
Defined.

(** Whenever the library raises only instances of [Exception], the four
    calls return. *)
Lemma builders_return w s :
  raises_only_Exception w ->
  exists r1 s1 r2 s2 r3 s3 r4 s4,
    generate_current_hobby_architecture w s = (Ok r1, s1) /\
    generate_consolidated_architecture w s1 = (Ok r2, s2) /\
    generate_future_scaling_architecture w s2 = (Ok r3, s3) /\
    generate_corrected_neon_branching w s3 = (Ok r4, s4).
Proof.
  intros Hw. destruct (generate_all_total w s Hw) as (results & s' & G).
  destruct (generate_all_inv _ _ _ _ G)
    as (r1 & s1 & r2 & s2 & r3 & s3 & r4 & E1 & E2 & E3 & E4 & _).
  exists r1, s1, r2, s2, r3, s3, r4, s'. auto.
Qed.

(** The directory creation raises [OSError]s only. *)
Lemma os_mkdir_raises rel s e s1 :
  os_mkdir rel s = (Raise e, s1) -> isinstance_Exception e = true.
Proof.
  unfold os_mkdir. destruct rel as [|x l].
  - destruct (fs s !! (cwd s ++ [])); intros H; now inversion H.
  - cbn zeta.
    destruct (fs s !! removelast (cwd s ++ x :: l)) as [[|c]|];
      [destruct (fs s !! (cwd s ++ x :: l))|..]; intros H; now inversion H.
Qed.

Lemma Path_mkdir_leaf_raises rel exist_ok s e s1 :
  Path_mkdir_leaf rel exist_ok s = (Raise e, s1) ->
  isinstance_Exception e = true.
Proof.
  unfold Path_mkdir_leaf, try_except.
  destruct (os_mkdir rel s) as [[[]|e0] s'] eqn:E; [discriminate|].
  apply os_mkdir_raises in E.
  destruct (isinstance_FileNotFoundError e0).
  - intros H. inversion H; subst. exact E.
  - unfold bind, Path_is_dir.
    destruct (negb exist_ok || negb _); intros H; inversion H; subst.
    exact E.
Qed.

Lemma Path_mkdir_parents_raises rrel exist_ok s e s1 :
  Path_mkdir_parents rrel exist_ok s = (Raise e, s1) ->
  isinstance_Exception e = true.
Proof.
  revert exist_ok s e s1.
  induction rrel as [|x rparent IH]; intros exist_ok s e s1;
    cbn [Path_mkdir_parents]; unfold try_except;
    destruct (os_mkdir _ s) as [[[]|e0] s'] eqn:E; try discriminate;
    apply os_mkdir_raises in E;
    (destruct (isinstance_FileNotFoundError e0);
     [|unfold bind, Path_is_dir;
       destruct (negb exist_ok || negb _); intros H; inversion H; subst;
       exact E]).
  - intros H. inversion H; subst. exact E.
  - unfold bind.
    destruct (Path_mkdir_parents rparent true s') as [[[]|e'] s2] eqn:R.
    + apply Path_mkdir_leaf_raises.
    + intros H. inversion H; subst. eapply IH. exact R.
Qed.

(** ** The summary after the change of directory *)

(** [report] resolves the relative [docs/diagrams] against the working
    directory of the moment, which by then is the output directory itself:
    the path it prints and the directory it globs are
    [docs/diagrams/docs/diagrams] below the invocation directory. *)
Lemma report_looks_below_output_directory w s s0 results s1 :
  prepare s = (Ok tt, s0) ->
  generate_all w s0 = (Ok results, s1) ->
  exists b s2,
    main w s = (Ok b, s2) /\
    stdout s2 =
      stdout s1 ++ report_lines results (fs s1) (cwd s ++ diagrams_dir) /\
    In (saved_to_line ((cwd s ++ diagrams_dir) ++ diagrams_dir)) (stdout s2) /\
    (is_dir (fs s1) ((cwd s ++ diagrams_dir) ++ diagrams_dir) = false ->
     listing_lines (glob_png (fs s1) (cwd s ++ diagrams_dir) diagrams_dir) = []).
Proof.
  intros Hp G.
  destruct (prepare_ok _ _ Hp) as (Hc & _).
  destruct (generate_all_effect _ _ _ _ G) as (Hc1 & _).
  eexists _, _. rewrite main_run, Hp, G, report_run.
  split; [reflexivity|]. cbn [stdout set_stdout]. rewrite Hc1, Hc.
  split; [reflexivity|]. split.
  - unfold report_lines. rewrite !in_app_iff. right. right. right. left.
    cbn. auto.
  - intros Hd. unfold glob_png. now rewrite Hd.
Qed.

(** C3 on a run where everything works, started in the empty project [/w]:
    the four images are in [/w/docs/diagrams], yet the summary names
    [/w/docs/diagrams/docs/diagrams] as the place they were saved to and
    lists no file at all. *)
Theorem summary_names_nested_directory :
  let p := snd (script ideal_world (start ["w"] empty_project [])) in
  fst (script ideal_world (start ["w"] empty_project [])) = Exited 0%Z /\
  cwd p = ["w"; "docs"; "diagrams"] /\
  png_children (fs p) ["w"; "docs"; "diagrams"] =
    [ ["w"; "docs"; "diagrams"; "corrected_neon_database_branching_strategy.png"];
      ["w"; "docs"; "diagrams"; "current_hobby_deployment_architecture.png"];
      ["w"; "docs"; "diagrams";
       "consolidated_ecs_+_external_services_architecture.png"];
      ["w"; "docs"; "diagrams"; "future_scaling_architecture.png"] ] /\
  fs p !! ["w"; "docs"; "diagrams"; "docs"; "diagrams"] = None /\
  stdout p =
    [ "🚀 Starting diagram generation...";
      "✅ Generated: Current Hobby Deployment Architecture";
      "✅ Generated: Consolidated ECS + External Services Architecture";
      "✅ Generated: Future Scaling Architecture";
      "✅ Generated: Corrected Neon Database Branching Strategy";
      nl +:+ "📊 Generation Results:";
      "  Current Hobby Architecture: ✅ SUCCESS";
      "  Consolidated Architecture: ✅ SUCCESS";
      "  Future Scaling Architecture: ✅ SUCCESS";
      "  Corrected Neon Branching: ✅ SUCCESS";
      nl +:+ "📁 Generated 4/4 diagrams successfully";
      "📂 Diagrams saved to: /w/docs/diagrams/docs/diagrams" ].
Proof. vm_compute. repeat split; reflexivity. Qed.

(** ** Running the script twice *)

Lemma script_state w p : snd (script w p) = snd (main w (after_load p)).
Proof. rewrite script_run. now destruct (main w (after_load p)) as [[b|e] s']. Qed.

Lemma apply_writes_lookup (kvs : list (list string * entry))
    (f : gmap (list string) entry) k v :
  NoDup (map fst kvs) -> In (k, v) kvs -> apply_writes kvs f !! k = Some v.
Proof.
  revert f. induction kvs as [|[k' v'] rest IH]; intros f Hnd Hin; [destruct Hin|].
  cbn [map fst] in Hnd. apply NoDup_cons in Hnd as [Hnot Hnd].
  cbn [apply_writes]. destruct Hin as [Heq|Hin].
  - inversion Heq; subst k' v'. rewrite apply_writes_other.
    + apply lookup_insert_eq.
    + apply Forall_forall. intros [k2 v2] Hin2 Heq2. cbn in Heq2. subst k2.
      apply Hnot. apply list_elem_of_In. apply in_map_iff.
      exists (k, v2). split; [reflexivity|]. now apply list_elem_of_In.
  - now apply IH.
Qed.

(** The four file names are pairwise different. *)
Lemma png_names_NoDup :
  NoDup (map (fun sh => png_name (sh_diagram sh)) shapes).
Proof. refine (bool_decide_unpack _ _). vm_compute. exact I. Qed.

(** The four output paths are pairwise different. *)
Lemma png_paths_NoDup c : NoDup (png_paths c).
Proof.
  unfold png_paths.
  change (map (fun sh => c ++ [png_name (sh_diagram sh)]) shapes)
    with (map (fun sh => (fun n => c ++ [n]) (png_name (sh_diagram sh))) shapes).
  rewrite <- (map_map (fun sh => png_name (sh_diagram sh)) (fun n => c ++ [n])).
  assert (Hinj : Inj (=) (=) (fun n : string => c ++ [n])).
  { intros n1 n2 H. apply app_inv_head in H. now inversion H. }
  apply (NoDup_fmap_2 (fun n : string => c ++ [n])). apply png_names_NoDup.
Qed.

(** After a run whose directory creation succeeded, the directory creation
    of the next run finds everything in place. *)
Lemma prepare_again w s s0 p :
  prepare s = (Ok tt, s0) ->
  cwd p = cwd s ->
  fs p = apply_writes (writes w (cwd s ++ diagrams_dir) shapes) (fs s0) ->
  exists s0', prepare p = (Ok tt, s0') /\ fs s0' = fs p.
Proof.
  intros Hp Hc Hf.
  destruct (prepare_ok _ _ Hp) as (_ & _ & _ & _ & Hd & Ho).
  eexists. rewrite prepare_run.
  rewrite Path_mkdir_diagrams_dir_exists.
  - split; reflexivity.
  - cbn [fs cwd set_stdout]. rewrite Hf, Hc, apply_writes_other; [exact Hd|].
    apply writes_miss. intros name. apply docs_not_png.
  - cbn [fs cwd set_stdout]. unfold is_dir.
    rewrite Hf, Hc, apply_writes_other; [exact Ho|].
    apply writes_miss. intros name. apply child_not_self.
Qed.

(** C7: a second run of the script from the same directory leaves the file
    system exactly as the first run left it.  Both runs write the same
    files, those of [writes], over each other; when the library raises
    nothing these are the four images, at four different paths directly
    below [docs/diagrams], holding the rendering of their diagram after the
    first run and after the second. *)
Theorem second_run_overwrites_in_place w inv f s0 :
  prepare (after_load (start inv f [])) = (Ok tt, s0) ->
  let f1 := fs_after w inv f in
  let f2 := fs_after w inv f1 in
  f2 = f1 /\
  f1 = apply_writes (writes w (output_dir inv) shapes) (fs s0) /\
  f2 = apply_writes (writes w (output_dir inv) shapes) f1 /\
  dom f2 = dom f1 /\
  png_children f2 (output_dir inv) = png_children f1 (output_dir inv) /\
  ((forall sh, In sh shapes -> available w sh) ->
   map fst (writes w (output_dir inv) shapes) = png_paths (output_dir inv) /\
   NoDup (png_paths (output_dir inv)) /\
   length (png_paths (output_dir inv)) = 4 /\
   forall sh, In sh shapes ->
     f1 !! (output_dir inv ++ [png_name (sh_diagram sh)])
       = Some (EFile (encode_png w (sh_diagram sh))) /\
     f2 !! (output_dir inv ++ [png_name (sh_diagram sh)])
       = Some (EFile (encode_png w (sh_diagram sh)))).
Proof.
  intros Hp f1 f2.
  assert (H1 : f1 = apply_writes (writes w (output_dir inv) shapes) (fs s0)).
  { subst f1. unfold fs_after. rewrite script_state.
    now destruct (main_fs w _ _ Hp) as [H _]. }
  assert (H2 : f2 = apply_writes (writes w (output_dir inv) shapes) f1).
  { subst f2. unfold fs_after at 1. rewrite script_state.
    destruct (prepare_again w _ s0 (after_load (start inv f1 [])) Hp)
      as (s0' & Hp' & Hf'); [reflexivity | exact H1 |].
    destruct (main_fs w _ _ Hp') as [H _]. rewrite H, Hf'. reflexivity. }
  assert (H12 : f2 = f1).
  { rewrite H2, H1. apply apply_writes_twice. }
  split; [exact H12|]. split; [exact H1|]. split; [exact H2|].
  split; [now rewrite H12|]. split; [now rewrite H12|].
  intros Hav.
  assert (Hw := writes_available w (output_dir inv) Hav).
  split; [|split; [apply png_paths_NoDup|split; [reflexivity|]]].
  - rewrite Hw. unfold png_paths. rewrite map_map. reflexivity.
  - intros sh Hin.
    assert (E : f1 !! (output_dir inv ++ [png_name (sh_diagram sh)])
                = Some (EFile (encode_png w (sh_diagram sh)))).
    { rewrite H1. apply apply_writes_lookup.
      - rewrite Hw, map_map. apply png_paths_NoDup.
      - rewrite Hw. apply in_map_iff. exists sh. split; [reflexivity | exact Hin]. }
    split; [exact E | now rewrite H12].
Qed.

Lemma second_run_overwrites_in_place_witness :
  fs_after ideal_world ["w"] (fs_after ideal_world ["w"] empty_project)
  = fs_after ideal_world ["w"] empty_project.
Proof.
  refine (proj1 (second_run_overwrites_in_place ideal_world ["w"] empty_project
                   (snd (prepare (after_load (start ["w"] empty_project [])))) _)).
  vm_compute. reflexivity.
Defined.

(** The change of directory outlives [main]: a second call of [main] in
    the same process starts in [docs/diagrams] and writes its images one
    level further down. *)
Lemma main_twice_in_one_process :
  let s1 := snd (main ideal_world (start ["w"] empty_project [])) in
  let s2 := snd (main ideal_world s1) in
  cwd s1 = ["w"; "docs"; "diagrams"] /\
  cwd s2 = ["w"; "docs"; "diagrams"; "docs"; "diagrams"] /\
  length (png_children (fs s2) ["w"; "docs"; "diagrams"; "docs"; "diagrams"]) = 4.
Proof. vm_compute. repeat split; reflexivity. Qed.

(** The script ends with exit code 0 or 1, or with the exception that left
    [main]. *)
Lemma script_outcomes w p :
  match fst (script w p) with
  | Exited code =>
      exists b, fst (main w (after_load p)) = Ok b /\
                code = (if b then 0 else 1)%Z
  | Uncaught e => fst (main w (after_load p)) = Raise e
  end.
Proof.
  rewrite script_run. destruct (main w (after_load p)) as [[b|e] s']; cbn; eauto.
Qed.

(** The exit status is 0 exactly when [main] returns [True]; it is 1 when
    [main] returns [False] and when the output directory cannot be made. *)
Lemma exit_status_of_run w p :
  (exit_status (fst (script w p)) = Some 0%Z <->
   fst (main w (after_load p)) = Ok true) /\
  (fst (main w (after_load p)) = Ok false ->
   exit_status (fst (script w p)) = Some 1%Z) /\
  (forall e, fst (prepare (after_load p)) = Raise e ->
   exit_status (fst (script w p)) = Some 1%Z).
Proof.
  rewrite script_run. split; [|split].
  - destruct (main w (after_load p)) as [[[]|e] s']; cbn; split;
      try discriminate; try reflexivity.
    destruct (isinstance_Exception e); discriminate.
  - destruct (main w (after_load p)) as [[[]|e] s']; cbn; try discriminate.
    reflexivity.
  - intros e He. rewrite main_run.
    destruct (prepare (after_load p)) as [[[]|e0] s0] eqn:Hp; [discriminate|].
    cbn [fst exit_status].
    apply prepare_raise in Hp as [Hp _].
    now rewrite (Path_mkdir_parents_raises _ _ _ _ _ Hp).
Qed.

(** ** Names used by the builders *)

Lemma mem_In x l : mem x l = true -> In x l.
Proof.
  unfold mem. intros H. apply existsb_exists in H as (y & Hy & E).
  apply String.eqb_eq in E. now subst.
Qed.

(** The check [names_bound] means what it says: a variable read by a
    statement is in the initial environment or assigned by a [Node]
    statement that comes earlier. *)
Lemma names_bound_sound env prog :
  names_bound env prog = true ->
  forall pre st post v,
    prog = pre ++ st :: post -> In v (reads st) ->
    In v env \/ exists icon text, In (Node v icon text) pre.
Proof.
  revert env. induction prog as [|x rest IH]; intros env Hb pre st post v Hs Hv.
  - destruct pre; discriminate.
  - cbn [names_bound] in Hb. apply andb_prop in Hb as [Hx Hrest].
    destruct pre as [|y pre'].
    + inversion Hs; subst. left. apply mem_In.
      now apply (proj1 (forallb_forall _ _) Hx).
    + inversion Hs; subst y rest.
      destruct (IH _ Hrest pre' st post v eq_refl Hv) as [Hin|(icon & text & Hin)].
      * apply in_app_or in Hin as [Ha|He]; [|now left].
        right. destruct x; cbn in Ha; try contradiction.
        destruct Ha as [->|[]]. exists icon, text. now left.
      * right. exists icon, text. now right.
Qed.

(** X1: in every builder, a variable used in a connection is assigned by an
    earlier statement of the same [with Diagram] block, so no connection
    can fail on an unbound name. *)
Theorem connections_use_assigned_nodes name b sh pre st post v :
  In (name, b, sh) builders ->
  flatten (scene (sh_diagram sh)) = pre ++ st :: post ->
  In v (reads st) ->
  exists icon text, In (Node v icon text) pre.
Proof.
  intros Hin Hs Hv.
  assert (Hb : names_bound [] (flatten (scene (sh_diagram sh))) = true).
  { cbn in Hin. destruct Hin as [H|[H|[H|[H|[]]]]]; inversion H; subst;
      vm_compute; reflexivity. }
  destruct (names_bound_sound _ _ Hb _ _ _ _ Hs Hv) as [[]|H]. exact H.
Qed.

Lemma connections_use_assigned_nodes_witness :
  exists icon text,
    In (Node "neon_replicas" icon text)
       (firstn 30 (flatten future_scaling_scene)).
Proof.
  apply (connections_use_assigned_nodes
           "Future Scaling Architecture" generate_future_scaling_architecture
           future_scaling_shape
           (firstn 30 (flatten future_scaling_scene))
           (Into (mkEdge "purple" "dotted" (Some "Auto-branching")) "neon_replicas")
           (skipn 31 (flatten future_scaling_scene))).
  - cbn. auto.
  - vm_compute. reflexivity.
  - cbn. auto.
Defined.

(** X2: every class a builder instantiates, [Diagram], [Cluster], [Edge] and
    each icon, is bound by one of that builder's own import statements. *)
Theorem builders_import_what_they_use name b sh c :
  In (name, b, sh) builders ->
  In c (classes_used sh) ->
  In c (imported sh).
Proof.
  intros Hin Hc.
  assert (Hb : forallb (fun c => mem c (imported sh)) (classes_used sh) = true).
  { cbn in Hin. destruct Hin as [H|[H|[H|[H|[]]]]]; inversion H; subst;
      vm_compute; reflexivity. }
  apply mem_In. now apply (proj1 (forallb_forall _ _) Hb).
Qed.

Lemma builders_import_what_they_use_witness :
  In "Blank" (imported corrected_neon_shape).
Proof.
  apply (builders_import_what_they_use
           "Corrected Neon Branching" generate_corrected_neon_branching
           corrected_neon_shape "Blank").
  - cbn. auto 10.
  - vm_compute. auto 30.
Defined.

(** ** What a run prints and when it stops *)

Lemma writes_returned w c l : writes w c (returned w l) = writes w c l.
Proof.
  induction l as [|sh rest IH]; [reflexivity|]. cbn [returned writes].
  destruct (shape_fault w sh) as [e|] eqn:F.
  - destruct (isinstance_Exception e) eqn:I; [|reflexivity].
    cbn [writes]. now rewrite F, I.
  - cbn [writes]. now rewrite F, IH.
Qed.

(** The console after the four calls: one line per builder that returned.
    Either all four return, with the results that [results_of] computes
    from the library alone, or the calls stop at the first builder whose
    exception is not an instance of [Exception]. *)
Lemma generate_all_transcript w s r s' :
  generate_all w s = (r, s') ->
  stdout s' = stdout s ++ map (builder_line w) (returned w shapes) /\
  match r with
  | Ok results => results = results_of w /\ returned w shapes = shapes
  | Raise e =>
      exists sh post,
        shapes = returned w shapes ++ sh :: post /\
        shape_fault w sh = Some e /\ isinstance_Exception e = false
  end.
Proof.
  rewrite generate_all_builds.
  unfold shapes, results_of, builder_line, succeeds, bind.
  cbn [map snd fst builders returned].
  step_build w current_hobby_shape;
  try (step_build w consolidated_shape;
       try (step_build w future_scaling_shape;
            try step_build w corrected_neon_shape));
  intros H; inversion H; subst r s';
  cbn [stdout after_success after_failure set_stdout set_fs map app];
  repeat match goal with
         | F : shape_fault _ _ = _ |- _ => rewrite F
         end;
  (split; [rewrite <- ?app_assoc; cbn [app]; rewrite ?app_nil_r; reflexivity|]);
  try (split; reflexivity);
  eexists _, _; (split; [cbn [app]; reflexivity|]); split; assumption.
Qed.

Lemma results_of_length w : length (results_of w) = 4.
Proof. reflexivity. Qed.

Lemma results_of_all w : forallb snd (results_of w) = forallb (succeeds w) shapes.
Proof. reflexivity. Qed.




(** X4: an exception that is not an instance of [Exception] ends the run where
    it is raised: it leaves [main] and the script uncaught, the builders
    after it never start, no summary is printed, and what the earlier
    builders printed and wrote stays. *)
Theorem uncaught_exception_stops_the_run w s s0 e s1 :
  prepare s = (Ok tt, s0) ->
  generate_all w s0 = (Raise e, s1) ->
  main w s = (Raise e, s1) /\
  (forall p, after_load p = s -> script w p = (Uncaught e, s1)) /\
  isinstance_Exception e = false /\
  (exists sh post,
     shapes = returned w shapes ++ sh :: post /\ shape_fault w sh = Some e) /\
  stdout s1 =
    stdout s ++ ["🚀 Starting diagram generation..."]
             ++ map (builder_line w) (returned w shapes) /\
  fs s1 =
    apply_writes (writes w (cwd s ++ diagrams_dir) (returned w shapes)) (fs s0).
Proof.
  intros Hp G.
  destruct (generate_all_transcript _ _ _ _ G) as (Ho & sh & post & Hs & Hf & Hi).
  destruct (generate_all_effect _ _ _ _ G) as (_ & _ & _ & Hfs & _).
  destruct (prepare_ok _ _ Hp) as (Hc & _ & _ & Hb & _).
  assert (Hm : main w s = (Raise e, s1)) by now rewrite main_run, Hp, G.
  split; [exact Hm|]. split.
  { intros p Hl. now rewrite script_run, Hl, Hm. }
  split; [exact Hi|]. split; [eauto|]. split.
  - now rewrite Ho, Hb, <- app_assoc.
  - now rewrite writes_returned, <- Hc.
Qed.

Lemma uncaught_exception_stops_the_run_witness :
  exists s1,
    main late_interrupt_world (start ["w"] empty_project [])
      = (Raise keyboard_interrupt, s1) /\
    stdout s1 =
      [ "🚀 Starting diagram generation...";
        "✅ Generated: Current Hobby Deployment Architecture";
        "✅ Generated: Consolidated ECS + External Services Architecture";
        "✅ Generated: Future Scaling Architecture" ].
Proof.
  pose (s := start ["w"] empty_project []).
  pose (s0 := snd (prepare s)).
  pose (s1 := snd (generate_all late_interrupt_world s0)).
  destruct (uncaught_exception_stops_the_run late_interrupt_world s s0
              keyboard_interrupt s1) as (Hm & _ & _ & _ & Ho & _);
    try (apply run_eq; vm_compute; reflexivity).
  exists s1. split; [exact Hm|]. rewrite Ho. vm_compute. reflexivity.
Defined.





(** X6: the whole console of a run that reaches its end: the banner, one line
    per builder, the header, one status line per builder that says SUCCESS
    exactly for the builders that reported success, the tally, the
    "saved to" line and the file listing; the flag returned is the
    conjunction over the builders. *)
Theorem console_of_a_complete_run w s s0 :
  prepare s = (Ok tt, s0) ->
  raises_only_Exception w ->
  exists s2,
    main w s = (Ok (forallb (succeeds w) shapes), s2) /\
    stdout s2 =
      stdout s
      ++ ["🚀 Starting diagram generation..."]
      ++ map (builder_line w) shapes
      ++ [nl +:+ "📊 Generation Results:"]
      ++ map status_line (results_of w)
      ++ [ tally_line (count_successes (results_of w)) 4;
           saved_to_line ((cwd s ++ diagrams_dir) ++ diagrams_dir) ]
      ++ listing_lines (glob_png (fs s2) (cwd s ++ diagrams_dir) diagrams_dir) /\
    (forall sh, In sh shapes ->
       (builder_line w sh = sh_done sh <-> succeeds w sh = true) \/
       (exists e, shape_fault w sh = Some e /\
                  builder_line w sh = sh_failed sh +:+ exn_text e /\
                  succeeds w sh = false)).
Proof.
  intros Hp Hw. destruct (generate_all_total w s0 Hw) as (results & s1 & G).
  destruct (generate_all_transcript _ _ _ _ G) as (Ho & Hr & Hret).
  destruct (generate_all_effect _ _ _ _ G) as (Hc1 & _).
  destruct (prepare_ok _ _ Hp) as (Hc & _ & _ & Hb & _).
  subst results. rewrite Hret in Ho.
  eexists. rewrite main_run, Hp, G, report_run, all_succeeded, results_of_all.
  split; [reflexivity|]. cbn [stdout fs set_stdout]. split.
  - unfold report_lines. rewrite results_of_length, Ho, Hb, Hc1, Hc.
    rewrite <- !app_assoc. reflexivity.
  - intros sh _. unfold builder_line, succeeds.
    destruct (shape_fault w sh) as [e|]; [right; eauto|left].
    split; reflexivity.
Qed.

Lemma console_of_a_complete_run_witness :
  exists s2,
    main flaky_world (start ["w"] empty_project [])
      = (Ok (forallb (succeeds flaky_world) shapes), s2).
Proof.
  destruct (console_of_a_complete_run flaky_world
              (start ["w"] empty_project [])
              (snd (prepare (start ["w"] empty_project []))))
    as (s2 & Hm & _).
  - apply run_eq. vm_compute. reflexivity.
  - intros name b sh e Hin Hf.
    cbn in Hin. destruct Hin as [H|[H|[H|[H|[]]]]]; inversion H; subst;
      vm_compute in Hf; inversion Hf; reflexivity.
  - exists s2. exact Hm.
Defined.

(** ** What a run leaves alone *)

Lemma adds_dirs_only_refl f : adds_dirs_only f f.
Proof. intros k. now left. Qed.

Lemma adds_dirs_only_trans f f1 f2 :
  adds_dirs_only f f1 -> adds_dirs_only f1 f2 -> adds_dirs_only f f2.
Proof.
  intros H1 H2 k. destruct (H1 k) as [E1|[N1 D1]], (H2 k) as [E2|[N2 D2]].
  - left. congruence.
  - rewrite E1 in N2. now right.
  - right. split; [exact N1 | congruence].
  - congruence.
Qed.

Lemma os_mkdir_adds_dir rel s r s1 :
  os_mkdir rel s = (r, s1) -> adds_dirs_only (fs s) (fs s1).
Proof.
  unfold os_mkdir. destruct rel as [|x l].
  - destruct (fs s !! (cwd s ++ [])); intros H; inversion H;
      apply adds_dirs_only_refl.
  - cbn zeta.
    destruct (fs s !! removelast (cwd s ++ x :: l)) as [[|c]|];
      [destruct (fs s !! (cwd s ++ x :: l)) eqn:Q|..];
      intros H; inversion H; subst; try apply adds_dirs_only_refl.
    intros k. cbn [fs set_fs].
    destruct (decide (cwd s ++ x :: l = k)) as [<-|Hne].
    + right. split; [exact Q | apply lookup_insert_eq].
    + left. now apply lookup_insert_ne.
Qed.

Lemma Path_mkdir_leaf_adds_dirs rel exist_ok s r s1 :
  Path_mkdir_leaf rel exist_ok s = (r, s1) -> adds_dirs_only (fs s) (fs s1).
Proof.
  unfold Path_mkdir_leaf, try_except.
  destruct (os_mkdir rel s) as [[[]|e] s'] eqn:E;
    pose proof (os_mkdir_adds_dir _ _ _ _ E) as Ha.
  - intros H. now inversion H; subst.
  - destruct (isinstance_FileNotFoundError e).
    + intros H. now inversion H; subst.
    + unfold bind, Path_is_dir.
      destruct (negb exist_ok || negb _); intros H; now inversion H; subst.
Qed.

(** Making directories never removes or replaces what is there. *)
Lemma Path_mkdir_parents_adds_dirs rrel exist_ok s r s1 :
  Path_mkdir_parents rrel exist_ok s = (r, s1) ->
  adds_dirs_only (fs s) (fs s1).
Proof.
  revert exist_ok s r s1.
  induction rrel as [|x rparent IH]; intros exist_ok s r s1;
    cbn [Path_mkdir_parents]; unfold try_except;
    destruct (os_mkdir _ s) as [[[]|e] s'] eqn:E;
    pose proof (os_mkdir_adds_dir _ _ _ _ E) as Ha;
    try (intros H; now inversion H; subst);
    (destruct (isinstance_FileNotFoundError e);
     [|unfold bind, Path_is_dir;
       destruct (negb exist_ok || negb _); intros H; now inversion H; subst]).
  - intros H. now inversion H; subst.
  - unfold bind.
    destruct (Path_mkdir_parents rparent true s') as [[[]|e'] s2] eqn:R.
    + intros H. eapply adds_dirs_only_trans; [exact Ha|].
      eapply adds_dirs_only_trans; [eapply IH; exact R|].
      eapply Path_mkdir_leaf_adds_dirs; exact H.
    + intros H. inversion H; subst.
      eapply adds_dirs_only_trans; [exact Ha | eapply IH; exact R].
Qed.

Lemma prepare_adds_dirs s r s1 :
  prepare s = (r, s1) -> adds_dirs_only (fs s) (fs s1).
Proof.
  rewrite prepare_run.
  destruct (Path_mkdir diagrams_dir true true _) as [[[]|e] s'] eqn:E;
    apply Path_mkdir_parents_adds_dirs in E; cbn [fs set_stdout] in E;
    intros H; inversion H; subst; exact E.
Qed.

Lemma writes_keys w c l k :
  In k (map fst (writes w c l)) ->
  In k (map (fun sh => c ++ [png_name (sh_diagram sh)]) l).
Proof.
  induction l as [|sh rest IH]; cbn [writes map]; [auto|].
  destruct (shape_fault w sh) as [e|].
  - destruct (isinstance_Exception e); [right; auto | intros []].
  - cbn [map fst]. intros [H|H]; [now left | right; auto].
Qed.

(** Path by path, [main] leaves an entry as it was, adds a directory at a
    free path, or the path is one of the four image paths. *)
Lemma main_fs_frame w s k :
  fs (snd (main w s)) !! k = fs s !! k \/
  (fs s !! k = None /\ fs (snd (main w s)) !! k = Some EDir) \/
  In k (png_paths (cwd s ++ diagrams_dir)).
Proof.
  destruct (prepare s) as [[[]|e] s0] eqn:Hp.
  - destruct (main_fs w _ _ Hp) as [Hf _]. rewrite Hf.
    destruct (decide (k ∈ map fst (writes w (cwd s ++ diagrams_dir) shapes)))
      as [Hin|Hout]; rewrite list_elem_of_In in *.
    + right. right. now apply writes_keys in Hin.
    + rewrite apply_writes_other.
      * destruct (prepare_adds_dirs _ _ _ Hp k) as [E|N]; auto.
      * apply Forall_forall. intros kv Hkv Heq. apply Hout.
        apply in_map_iff. exists kv. split; [exact Heq|].
        now apply list_elem_of_In.
  - rewrite main_run, Hp. cbn [snd].
    destruct (prepare_adds_dirs _ _ _ Hp k) as [E|N]; auto.
Qed.

(** ** Calling [main] again *)

Lemma main_ok_inv w s b s1 :
  main w s = (Ok b, s1) ->
  exists s0 results s',
    prepare s = (Ok tt, s0) /\
    generate_all w s0 = (Ok results, s') /\
    report results s' = (Ok b, s1).
Proof.
  rewrite main_run. destruct (prepare s) as [[[]|e] s0] eqn:Hp; [|discriminate].
  destruct (generate_all w s0) as [[results|e] s'] eqn:G; [|discriminate].
  intros H. exists s0, results, s'. auto.
Qed.

Lemma writes_sublist w c l :
  map fst (writes w c l)
    `sublist_of` map (fun sh => c ++ [png_name (sh_diagram sh)]) l.
Proof.
  induction l as [|sh rest IH]; cbn [writes map]; [constructor|].
  destruct (shape_fault w sh) as [e|].
  - destruct (isinstance_Exception e).
    + now apply sublist_cons.
    + apply sublist_nil_l.
  - cbn [map fst]. now apply sublist_skip.
Qed.

Lemma writes_NoDup w c : NoDup (map fst (writes w c shapes)).
Proof.
  eapply sublist_NoDup; [apply (png_paths_NoDup c) | apply writes_sublist].
Qed.

Lemma writes_In w c l sh :
  returned w l = l -> In sh l -> available w sh ->
  In (c ++ [png_name (sh_diagram sh)], EFile (encode_png w (sh_diagram sh)))
     (writes w c l).
Proof.
  unfold available.
  induction l as [|x rest IH]; intros Hr Hin Hav; [destruct Hin|].
  cbn [returned writes] in *.
  destruct (shape_fault w x) as [e|] eqn:F.
  - destruct (isinstance_Exception e); [|discriminate].
    inversion Hr as [Hr']. destruct Hin as [->|Hin]; [congruence|].
    rewrite Hr'. now apply IH.
  - inversion Hr as [Hr']. rewrite Hr'.
    destruct Hin as [->|Hin]; [now left | right; now apply IH].
Qed.

(** The image of an available builder after a [main] that returned. *)
Lemma main_image w s b s1 sh :
  main w s = (Ok b, s1) -> In sh shapes -> available w sh ->
  cwd s1 = cwd s ++ diagrams_dir /\
  chdir_log s1 = chdir_log s ++ [cwd s ++ diagrams_dir] /\
  fs s1 !! ((cwd s ++ diagrams_dir) ++ [png_name (sh_diagram sh)])
    = Some (EFile (encode_png w (sh_diagram sh))).
Proof.
  intros Hm Hin Hav.
  destruct (main_ok_inv _ _ _ _ Hm) as (s0 & results & s' & Hp & G & R).
  destruct (main_fs w _ _ Hp) as [Hf Hc]. rewrite Hm in Hf, Hc. cbn [snd] in Hf, Hc.
  destruct (prepare_ok _ _ Hp) as (_ & Hl & _).
  destruct (generate_all_effect _ _ _ _ G) as (_ & _ & Hl' & _).
  destruct (generate_all_transcript _ _ _ _ G) as (_ & _ & Hret).
  rewrite report_run in R. inversion R; subst s1.
  split; [exact Hc|]. split; [cbn [chdir_log set_stdout]; congruence|].
  rewrite Hf. apply apply_writes_lookup; [apply writes_NoDup|].
  now apply writes_In.
Qed.

(** X8: [main] never changes back to the directory it was called in, so a
    second call in the same process works one level further down: it makes
    and enters [docs/diagrams] below the first output directory and writes
    its images there, next to the untouched images of the first call. *)
Theorem second_call_works_one_level_down w s b1 s1 b2 s2 :
  main w s = (Ok b1, s1) ->
  main w s1 = (Ok b2, s2) ->
  let out := cwd s ++ diagrams_dir in
  cwd s1 = out /\
  cwd s2 = out ++ diagrams_dir /\
  chdir_log s2 = chdir_log s ++ [out; out ++ diagrams_dir] /\
  is_dir (fs s2) (out ++ diagrams_dir) = true /\
  forall sh, In sh shapes -> available w sh ->
    fs s2 !! (out ++ [png_name (sh_diagram sh)])
      = Some (EFile (encode_png w (sh_diagram sh))) /\
    fs s2 !! ((out ++ diagrams_dir) ++ [png_name (sh_diagram sh)])
      = Some (EFile (encode_png w (sh_diagram sh))).
Proof.
  intros H1 H2 out.
  assert (Hc1 : cwd s1 = out).
  { destruct (main_ok_inv _ _ _ _ H1) as (s0 & _ & _ & Hp & _).
    destruct (main_fs w _ _ Hp) as [_ Hc]. now rewrite H1 in Hc. }
  assert (Hl1 : chdir_log s1 = chdir_log s ++ [out]).
  { destruct (main_ok_inv _ _ _ _ H1) as (s0 & results & s' & Hp & G & R).
    destruct (prepare_ok _ _ Hp) as (_ & Hl & _).
    destruct (generate_all_effect _ _ _ _ G) as (_ & _ & Hl' & _).
    rewrite report_run in R. inversion R; subst s1.
    cbn [chdir_log set_stdout]. unfold out. congruence. }
  destruct (main_ok_inv _ _ _ _ H2) as (s0 & results & s' & Hp & G & R).
  destruct (prepare_ok _ _ Hp) as (Hc & Hl & _ & _ & _ & Hd).
  destruct (generate_all_effect _ _ _ _ G) as (Hc' & _ & Hl' & Hf' & _).
  rewrite report_run in R. injection R as Hb Hs2.
  assert (Hfs2 : fs s2 = fs s') by now rewrite <- Hs2.
  assert (Hcw2 : cwd s2 = cwd s') by now rewrite <- Hs2.
  assert (Hlg2 : chdir_log s2 = chdir_log s') by now rewrite <- Hs2.
  clear Hs2.
  split; [exact Hc1|]. split.
  { rewrite Hcw2. congruence. }
  split.
  { rewrite Hlg2, Hl', Hl, Hl1, Hc1, <- app_assoc. reflexivity. }
  split.
  { rewrite Hfs2, Hf'. unfold is_dir. rewrite apply_writes_other.
    - rewrite <- Hc1. exact Hd.
    - apply writes_miss. intros name. rewrite Hc, Hc1. apply child_not_self. }
  intros sh Hin Hav. split.
  - destruct (main_image _ _ _ _ sh H1 Hin Hav) as (_ & _ & Hfile).
    fold out in Hfile.
    destruct (main_fs_frame w s1 (out ++ [png_name (sh_diagram sh)]))
      as [E|[[N _]|Hbad]].
    + rewrite H2 in E. cbn [snd] in E. now rewrite E.
    + rewrite Hfile in N. discriminate.
    + exfalso. unfold png_paths in Hbad. apply in_map_iff in Hbad as (x & Hx & _).
      rewrite Hc1, <- !app_assoc in Hx. apply app_inv_head in Hx.
      discriminate Hx.
  - destruct (main_image _ _ _ _ sh H2 Hin Hav) as (_ & _ & Hfile).
    now rewrite Hc1 in Hfile.
Qed.

Lemma second_call_works_one_level_down_witness :
  exists s2,
    is_dir (fs s2) ["w"; "docs"; "diagrams"; "docs"; "diagrams"] = true /\
    cwd s2 = ["w"; "docs"; "diagrams"; "docs"; "diagrams"].
Proof.
  assert (H1 : fst (main ideal_world (start ["w"] empty_project [])) = Ok true)
    by (vm_compute; reflexivity).
  assert (H2 : fst (main ideal_world
                      (snd (main ideal_world (start ["w"] empty_project []))))
               = Ok true)
    by (vm_compute; reflexivity).
  pose proof (second_call_works_one_level_down ideal_world _ _ _ _ _
                (run_eq _ _ H1) (run_eq _ _ H2)) as (_ & Hc & _ & Hd & _).
  eexists. split; [exact Hd | exact Hc].
Defined.

(** ** The file listing *)

Lemma append_inv_head (p a b : string) : p +:+ a = p +:+ b -> a = b.
Proof.
  induction p as [|c p IH]; cbn; [auto|]. intros H. inversion H. auto.
Qed.

Lemma Path_name_app (p : list string) (name : string) :
  Path_name (p ++ [name]) = name.
Proof. unfold Path_name. apply List.last_last. Qed.

(** The glob finds exactly the entries directly below [dir] whose name
    ends in [.png], files and directories alike. *)
Lemma png_children_spec (f : gmap (list string) entry) (dir k : list string) :
  In k (png_children f dir) <->
  exists name,
    k = dir ++ [name] /\ ends_with ".png" name = true /\ is_Some (f !! k).
Proof.
  unfold png_children. rewrite List.filter_In, in_map_iff. split.
  - intros [([k0 v] & Hk & Hin) Hc]. cbn in Hk. subst k0.
    destruct (child_name dir k) as [name|] eqn:C; [|discriminate].
    apply child_name_inv in C. exists name.
    apply list_elem_of_In, elem_of_map_to_list in Hin.
    split; [exact C|]. split; [exact Hc|]. rewrite Hin. eauto.
  - intros (name & -> & He & [v Hv]). split.
    + exists (dir ++ [name], v). split; [reflexivity|].
      now apply list_elem_of_In, elem_of_map_to_list.
    + now rewrite child_name_app.
Qed.

Lemma png_children_NoDup (f : gmap (list string) entry) (dir : list string) :
  NoDup (png_children f dir).
Proof.
  unfold png_children. apply NoDup_ListNoDup, List.NoDup_filter, NoDup_ListNoDup.
  apply (NoDup_fst_map_to_list f).
Qed.

Lemma header_not_file_line (x : string) :
  nl +:+ "📄 Generated files:" <> "  - " +:+ x.
Proof. unfold nl. cbn. discriminate. Qed.

(** The lines of the listing, in terms of the globbed entries. *)
Lemma listing_of_children (l : list (list string)) :
  listing_lines (map (fun k => diagrams_dir ++ [Path_name k]) l) =
  match l with
  | [] => []
  | _ :: _ =>
      (nl +:+ "📄 Generated files:")
        :: map (fun k => "  - " +:+ Path_name k) l
  end.
Proof.
  destruct l as [|x l]; [reflexivity|]. cbn [map listing_lines]. f_equal.
  rewrite Path_name_app. f_equal. rewrite map_map.
  apply map_ext. intros k. now rewrite Path_name_app.
Qed.

Lemma file_lines_spec (f : gmap (list string) entry) (dir : list string)
    (name : string) :
  In ("  - " +:+ name)
     (map (fun k => "  - " +:+ Path_name k) (png_children f dir)) <->
  ends_with ".png" name = true /\ is_Some (f !! (dir ++ [name])).
Proof.
  rewrite in_map_iff. split.
  - intros (k & Hk & Hin).
    apply png_children_spec in Hin as (n & -> & He & Hs).
    rewrite Path_name_app in Hk. apply append_inv_head in Hk. subst. auto.
  - intros [He Hs]. exists (dir ++ [name]).
    rewrite Path_name_app. split; [reflexivity|].
    apply png_children_spec. eauto.
Qed.

Lemma file_lines_NoDup (f : gmap (list string) entry) (dir : list string) :
  NoDup (map (fun k => "  - " +:+ Path_name k) (png_children f dir)).
Proof.
  apply (NoDup_fmap_2_strong (fun k => "  - " +:+ Path_name k));
    [|apply png_children_NoDup].
  intros x y Hx Hy Heq. apply list_elem_of_In in Hx, Hy.
  apply png_children_spec in Hx as (nx & -> & _).
  apply png_children_spec in Hy as (ny & -> & _).
  rewrite !Path_name_app in Heq. apply append_inv_head in Heq. now subst.
Qed.

(** X9: the end of the summary: after the status lines, the tally and the
    "saved to" line, [main] prints one line per entry of the globbed
    directory whose name ends in [.png], each name once, under a header
    that appears only when there is such an entry; when the globbed path is
    no directory nothing is listed. *)
Theorem listing_names_png_entries results s :
  let dir := cwd s ++ diagrams_dir in
  let listing := listing_lines (glob_png (fs s) (cwd s) diagrams_dir) in
  (exists summary,
     stdout (snd (report results s)) = stdout s ++ summary ++ listing /\
     length summary = length results + 3) /\
  (forall name,
     In ("  - " +:+ name) listing <->
     is_dir (fs s) dir = true /\ ends_with ".png" name = true /\
     is_Some (fs s !! (dir ++ [name]))) /\
  NoDup listing /\
  (is_dir (fs s) dir = false -> listing = []).
Proof.
  intros dir listing. subst dir listing. split; [|split; [|split]].
  - rewrite report_run. cbn [snd stdout set_stdout]. unfold report_lines.
    eexists ([_] ++ map status_line results ++ [_; _]).
    split; [now rewrite <- !app_assoc|].
    rewrite !length_app, length_map. cbn. lia.
  - intros name. unfold glob_png.
    destruct (is_dir (fs s) (cwd s ++ diagrams_dir)) eqn:D.
    + rewrite listing_of_children.
      pose proof (file_lines_spec (fs s) (cwd s ++ diagrams_dir) name) as Hiff.
      destruct (png_children (fs s) (cwd s ++ diagrams_dir)) as [|k0 rest].
      * cbn [map In] in Hiff. split; [intros []|].
        intros (_ & H). now apply Hiff.
      * split.
        -- intros [Hh|Hin]; [now apply header_not_file_line in Hh|].
           split; [reflexivity|]. now apply Hiff.
        -- intros (_ & H). right. now apply Hiff.
    + cbn. split; [intros [] | intros (H & _); discriminate H].
  - unfold glob_png. destruct (is_dir (fs s) (cwd s ++ diagrams_dir));
      [|apply NoDup_nil_2].
    rewrite listing_of_children.
    pose proof (file_lines_NoDup (fs s) (cwd s ++ diagrams_dir)) as Hnd.
    destruct (png_children (fs s) (cwd s ++ diagrams_dir)) as [|k0 rest];
      [apply NoDup_nil_2|].
    apply NoDup_cons_2; [|exact Hnd].
    rewrite list_elem_of_In, in_map_iff. intros (k & Hk & _).
    symmetry in Hk. now apply header_not_file_line in Hk.
  - intros D. unfold glob_png. now rewrite D.
Qed.

Lemma listing_names_png_entries_witness :
  In ("  - " +:+ "notes.png")
     (listing_lines
        (glob_png used_project ["w"] diagrams_dir)).
Proof.
  apply (proj1 (proj2 (listing_names_png_entries []
                         (start ["w"] used_project []))) "notes.png").
  vm_compute. repeat split; eauto.
Defined.

Lemma report_looks_below_output_directory_witness :
  exists b s2,
    main ideal_world (start ["w"] empty_project []) = (Ok b, s2) /\
    In (saved_to_line ["w"; "docs"; "diagrams"; "docs"; "diagrams"]) (stdout s2).
Proof.
  assert (Hp : fst (prepare (start ["w"] empty_project [])) = Ok tt)
    by (vm_compute; reflexivity).
  assert (G : fst (generate_all ideal_world
                     (snd (prepare (start ["w"] empty_project []))))
              = Ok (results_of ideal_world))
    by (vm_compute; reflexivity).
  destruct (report_looks_below_output_directory ideal_world _ _ _ _
              (run_eq _ _ Hp) (run_eq _ _ G)) as (b & s2 & Hm & _ & Hin & _).
  exists b, s2. split; [exact Hm | exact Hin].
Defined.

(** ** The environment: single calls *)

Lemma full_state_eta (s : Full.State) :
  Full.mkState (Full.proc s) (Full.sys_modules s) = s.
Proof. now destruct s. Qed.

Lemma attempt_fault {A} env o (c : M A) s x :
  Full.fault env s o = Some x -> Full.attempt env o c s = (Raise x, s).
Proof. unfold Full.attempt. now intros ->. Qed.

Lemma attempt_ok {A} env o (c : M A) s :
  Full.fault env s o = None ->
  Full.attempt env o c s =
  (fst (c (Full.proc s)),
   Full.mkState (snd (c (Full.proc s))) (Full.sys_modules s)).
Proof. unfold Full.attempt. intros ->. now destruct (c (Full.proc s)). Qed.

(** What one call can do: the environment raises and nothing changes, or
    the call acts on the process and leaves [sys.modules] alone. *)
Lemma attempt_cases {A} env o (c : M A) s :
  (exists x, Full.fault env s o = Some x /\
             Full.attempt env o c s = (Raise x, s)) \/
  (Full.fault env s o = None /\
   Full.attempt env o c s =
   (fst (c (Full.proc s)),
    Full.mkState (snd (c (Full.proc s))) (Full.sys_modules s))).
Proof.
  destruct (Full.fault env s o) as [x|] eqn:F.
  - left. exists x. split; [reflexivity | now apply attempt_fault].
  - right. split; [reflexivity | now apply attempt_ok].
Qed.

Lemma stays_refl s : stays s s.
Proof. unfold stays. auto using incl_refl. Qed.

Lemma stays_trans s s1 s2 : stays s s1 -> stays s1 s2 -> stays s s2.
Proof.
  unfold stays. intros (?&?&?&?) (?&?&?&?).
  repeat split; try congruence. eapply incl_tran; eassumption.
Qed.

Lemma full_print_run env line s :
  Full.print env line s =
  match Full.fault env s (Full.Print line) with
  | Some x => (Raise x, s)
  | None =>
      (Ok tt, Full.mkState (set_stdout (stdout (Full.proc s) ++ [line]) (Full.proc s))
                           (Full.sys_modules s))
  end.
Proof. reflexivity. Qed.


(** ** The environment: imports and builders *)

Lemma load_spec env ms s r s1 :
  Full.load env ms s = (r, s1) ->
  Full.proc s1 = Full.proc s /\
  incl (Full.sys_modules s) (Full.sys_modules s1) /\
  match r with
  | Ok _ => True
  | Raise e =>
      exists s0 o, Full.library_op o = true /\ Full.fault env s0 o = Some e
  end.
Proof.
  revert s. induction ms as [|m rest IH]; intros s; cbn [Full.load].
  - intros H. inversion H; subst. auto using incl_refl.
  - unfold Full.bind at 1.
    destruct (mem m (Full.sys_modules s)).
    + apply IH.
    + destruct (Full.fault env s (Full.ImportModule m)) as [x|] eqn:F.
      * intros H. inversion H; subst. split; [reflexivity|].
        split; [apply incl_refl|]. eexists _, (Full.ImportModule m).
        split; [reflexivity | exact F].
      * intros H. apply IH in H as (Hp & Hi & Hr). cbn in Hp, Hi.
        split; [exact Hp|]. split; [|exact Hr].
        intros x Hx. apply Hi, in_or_app. now left.
Qed.

Lemma import_names_spec env m names s r s1 :
  Full.import_names env m names s = (r, s1) ->
  s1 = s /\
  match r with
  | Ok _ => True
  | Raise e =>
      exists s0 o, Full.library_op o = true /\ Full.fault env s0 o = Some e
  end.
Proof.
  revert s. induction names as [|n rest IH]; intros s; cbn [Full.import_names].
  - intros H. now inversion H.
  - unfold Full.bind at 1.
    destruct (attempt_cases env (Full.ImportName m n)
                (fun p : Proc => (Ok tt, p)) s) as [(x & F & E)|(F & E)];
      rewrite E.
    + intros H. inversion H; subst. split; [reflexivity|].
      eexists _, (Full.ImportName m n). split; [reflexivity | exact F].
    + cbn [fst snd]. rewrite full_state_eta. apply IH.
Qed.

Lemma from_import_spec env m names s r s1 :
  Full.from_import env m names s = (r, s1) ->
  Full.proc s1 = Full.proc s /\
  incl (Full.sys_modules s) (Full.sys_modules s1) /\
  match r with
  | Ok _ => True
  | Raise e =>
      exists s0 o, Full.library_op o = true /\ Full.fault env s0 o = Some e
  end.
Proof.
  unfold Full.from_import, Full.bind.
  destruct (Full.load env (Full.packages m) s) as [[[]|e] s'] eqn:L;
    pose proof (load_spec _ _ _ _ _ L) as (Hp & Hi & Hr).
  - intros H. apply import_names_spec in H as [-> Hn]. auto.
  - intros H. inversion H; subst. auto.
Qed.

(** The imports of a builder leave the process alone; either one of them
    raises, or the rest of the [try] block runs with more modules
    loaded. *)
Lemma full_imports_then_spec {A} env imports (k : Full.M A) s r s1 :
  Full.imports_then env imports k s = (r, s1) ->
  (exists e, r = Raise e /\ Full.proc s1 = Full.proc s /\
             incl (Full.sys_modules s) (Full.sys_modules s1) /\
             exists s0 o, Full.library_op o = true /\
                          Full.fault env s0 o = Some e) \/
  (exists s', Full.proc s' = Full.proc s /\
              incl (Full.sys_modules s) (Full.sys_modules s') /\
              k s' = (r, s1)).
Proof.
  revert s. induction imports as [|[m names] rest IH]; intros s;
    cbn [Full.imports_then].
  - intros H. right. exists s. auto using incl_refl.
  - unfold Full.bind at 1.
    destruct (Full.from_import env m names s) as [[[]|e] s'] eqn:F;
      pose proof (from_import_spec _ _ _ _ _ _ F) as (Hp & Hi & Hr).
    + intros H. apply IH in H as [(e & -> & Hp' & Hi' & Hf)|(s2 & Hp' & Hi' & Hk)].
      * left. exists e. split; [reflexivity|]. split; [congruence|].
        split; [eapply incl_tran; eassumption | exact Hf].
      * right. exists s2. split; [congruence|].
        split; [eapply incl_tran; eassumption | exact Hk].
    + intros H. inversion H; subst. left. exists e. auto.
Qed.

(** The [try] block of a builder: it returns [True] after writing the
    image and printing the success line, or it raises what the environment
    raised in an import, in the rendering or in the [print] of the success
    line, with nothing printed. *)
Lemma body_spec env sh s r s1 :
  Full.body env sh s = (r, s1) ->
  stays s s1 /\
  match r with
  | Ok b =>
      b = true /\
      fs (Full.proc s1) =
        <[cwd (Full.proc s) ++ [png_name (sh_diagram sh)] :=
            EFile (Full.image env (sh_diagram sh))]> (fs (Full.proc s)) /\
      stdout (Full.proc s1) = stdout (Full.proc s) ++ [sh_done sh]
  | Raise e =>
      stdout (Full.proc s1) = stdout (Full.proc s) /\
      exists s0 o,
        Full.fault env s0 o = Some e /\
        (Full.library_op o = true \/ o = Full.Print (sh_done sh))
  end.
Proof.
  unfold Full.body. intros H.
  apply full_imports_then_spec in H
    as [(e & -> & Hp & Hi & s0 & o & Ho & Hf)|(s' & Hp & Hi & Hk)].
  - split; [unfold stays; rewrite Hp; auto|].
    split; [now rewrite Hp|]. exists s0, o. auto.
  - revert Hk. unfold Full.bind at 1, Full.with_Diagram.
    destruct (attempt_cases env (Full.Render (sh_diagram sh))
      (fun p : Proc =>
         (Ok tt, set_fs (<[cwd p ++ [png_name (sh_diagram sh)] :=
                           EFile (Full.image env (sh_diagram sh))]> (fs p)) p))
      s') as [(x & F & E)|(F & E)]; rewrite E.
    + intros H. inversion H; subst.
      split; [unfold stays; rewrite Hp; auto|].
      split; [now rewrite Hp|]. exists s1, (Full.Render (sh_diagram sh)). auto.
    + cbn [fst snd]. unfold Full.bind at 1. rewrite full_print_run.
      cbn [Full.proc Full.sys_modules].
      destruct (Full.fault env _ (Full.Print (sh_done sh))) as [x|] eqn:P.
      * intros H. inversion H; subst. cbn [Full.proc Full.sys_modules].
        split; [unfold stays; cbn; rewrite Hp; auto|].
        split; [cbn; now rewrite Hp|].
        eexists _, (Full.Print (sh_done sh)). split; [exact P | now right].
      * unfold Full.ret. intros H. inversion H; subst.
        cbn [Full.proc Full.sys_modules].
        split; [unfold stays; cbn; rewrite Hp; auto|].
        cbn. rewrite Hp. auto.
Qed.

Lemma full_builders_are_builds name b sh :
  In (name, b, sh) Full.builders -> forall env, b env = Full.build env sh.
Proof.
  intros [H|[H|[H|[H|[]]]]]; inversion H; subst; reflexivity.
Qed.

(** A builder as a whole. *)
Lemma full_build_run env sh s :
  Full.build env sh s =
  match Full.body env sh s with
  | (Ok r, s1) => (Ok r, s1)
  | (Raise e, s1) =>
      if isinstance_Exception e
      then
        match Full.fault env s1 (Full.Print (sh_failed sh +:+ exn_text e)) with
        | Some x => (Raise x, s1)
        | None =>
            (Ok false,
             Full.mkState
               (set_stdout (stdout (Full.proc s1) ++ [sh_failed sh +:+ exn_text e])
                           (Full.proc s1))
               (Full.sys_modules s1))
        end
      else (Raise e, s1)
  end.
Proof.
  unfold Full.build, Full.try_except.
  destruct (Full.body env sh s) as [[r|e] s1]; [reflexivity|].
  destruct (isinstance_Exception e); [|reflexivity].
  unfold Full.handler, Full.bind. rewrite full_print_run.
  now destruct (Full.fault env s1 _).
Qed.

(** A builder changes neither the working directory nor [sys.path]; what
    leaves it is something the environment raised: in the [try] block and
    not an instance of [Exception], or in the [print] of the [except]
    block. *)
Lemma full_build_spec env sh s r s2 :
  Full.build env sh s = (r, s2) ->
  stays s s2 /\
  match r with
  | Ok _ => True
  | Raise x =>
      exists s0 o,
        Full.fault env s0 o = Some x /\
        (isinstance_Exception x = false /\
         (Full.library_op o = true \/ o = Full.Print (sh_done sh))
         \/ exists e, isinstance_Exception e = true /\
                      o = Full.Print (sh_failed sh +:+ exn_text e))
  end.
Proof.
  rewrite full_build_run.
  destruct (Full.body env sh s) as [[b|e] s1] eqn:B;
    pose proof (body_spec _ _ _ _ _ B) as (Hst & Hr).
  - intros H. inversion H; subst. auto.
  - destruct Hr as (Ho & s0 & o & Hf & Hop).
    destruct (isinstance_Exception e) eqn:Hi.
    + destruct (Full.fault env s1 _) as [x|] eqn:P; intros H; inversion H; subst.
      * split; [exact Hst|]. eexists _, _. split; [exact P|]. right. eauto.
      * split; [|exact I]. unfold stays in *. cbn. exact Hst.
    + intros H. inversion H; subst. split; [exact Hst|].
      exists s0, o. auto.
Qed.


Lemma full_run_eq {A B} (x : A * B) (r : A) : fst x = r -> x = (r, snd x).
Proof. destruct x as [r' s']. cbn. now intros ->. Qed.





(** ** The environment: the orchestrator *)

Lemma full_generate_all_builds env :
  Full.generate_all env =
  Full.bind (Full.build env current_hobby_shape) (fun r1 =>
  Full.bind (Full.build env consolidated_shape) (fun r2 =>
  Full.bind (Full.build env future_scaling_shape) (fun r3 =>
  Full.bind (Full.build env corrected_neon_shape) (fun r4 =>
  Full.ret [ ("Current Hobby Architecture", r1);
             ("Consolidated Architecture", r2);
             ("Future Scaling Architecture", r3);
             ("Corrected Neon Branching", r4) ])))).
Proof. reflexivity. Qed.

Lemma full_shapes_are_builders sh :
  In sh shapes -> exists name b, In (name, b, sh) Full.builders.
Proof.
  intros [<-|[<-|[<-|[<-|[]]]]]; eexists _, _; cbn; eauto 6.
Qed.

(** The four calls: they change neither the working directory nor
    [sys.path]; they return four results, or stop at the first builder
    that lets an exception through. *)
Lemma full_generate_all_spec env s r s2 :
  Full.generate_all env s = (r, s2) ->
  stays s s2 /\
  match r with
  | Ok results => length results = 4
  | Raise x =>
      exists name b sh s',
        In (name, b, sh) Full.builders /\ stays s s' /\
        b env s' = (Raise x, s2)
  end.
Proof.
  rewrite full_generate_all_builds. unfold Full.bind, Full.ret.
  destruct (Full.build env current_hobby_shape s) as [[r1|x] s1] eqn:E1;
    pose proof (full_build_spec _ _ _ _ _ E1) as [H1 _].
  2:{ intros H; inversion H; subst. split; [exact H1|].
      exists "Current Hobby Architecture",
        Full.generate_current_hobby_architecture, current_hobby_shape, s.
      split; [cbn; auto|]. split; [apply stays_refl | exact E1]. }
  destruct (Full.build env consolidated_shape s1) as [[r2|x] s2'] eqn:E2;
    pose proof (full_build_spec _ _ _ _ _ E2) as [H2 _];
    pose proof (stays_trans _ _ _ H1 H2) as H12.
  2:{ intros H; inversion H; subst. split; [exact H12|].
      exists "Consolidated Architecture",
        Full.generate_consolidated_architecture, consolidated_shape, s1.
      split; [cbn; auto|]. split; [exact H1 | exact E2]. }
  destruct (Full.build env future_scaling_shape s2') as [[r3|x] s3] eqn:E3;
    pose proof (full_build_spec _ _ _ _ _ E3) as [H3 _];
    pose proof (stays_trans _ _ _ H12 H3) as H13.
  2:{ intros H; inversion H; subst. split; [exact H13|].
      exists "Future Scaling Architecture",
        Full.generate_future_scaling_architecture, future_scaling_shape, s2'.
      split; [cbn; auto|]. split; [exact H12 | exact E3]. }
  destruct (Full.build env corrected_neon_shape s3) as [[r4|x] s4] eqn:E4;
    pose proof (full_build_spec _ _ _ _ _ E4) as [H4 _];
    pose proof (stays_trans _ _ _ H13 H4) as H14.
  2:{ intros H; inversion H; subst. split; [exact H14|].
      exists "Corrected Neon Branching",
        Full.generate_corrected_neon_branching, corrected_neon_shape, s3.
      split; [cbn; auto 6|]. split; [exact H13 | exact E4]. }
  intros H; inversion H; subst. split; [exact H14 | reflexivity].
Qed.

Lemma summary_step_ret {A} env (a : A) : summary_step env (Full.ret a).
Proof.
  intros s r s1 H. inversion H; subst. auto using stays_refl.
Qed.

Lemma summary_step_bind {A B} env (c : Full.M A) (k : A -> Full.M B) :
  summary_step env c -> (forall a, summary_step env (k a)) ->
  summary_step env (Full.bind c k).
Proof.
  intros Hc Hk s r s2. unfold Full.bind.
  destruct (c s) as [[a|x] s1] eqn:C;
    destruct (Hc _ _ _ C) as (Hf & Hs & Hm & Hr).
  - intros K. destruct (Hk _ _ _ _ K) as (Hf' & Hs' & Hm' & Hr').
    split; [congruence|]. split; [eapply stays_trans; eassumption|].
    split; [congruence | exact Hr'].
  - intros H. inversion H; subst. auto.
Qed.

Lemma summary_step_attempt {A} env o (c : M A) :
  summary_op o = true ->
  (forall p, exists a, c p = (Ok a, set_stdout (stdout (snd (c p))) p)) ->
  summary_step env (Full.attempt env o c).
Proof.
  intros Ho Hc s r s1.
  destruct (attempt_cases env o c s) as [(x & F & E)|(F & E)]; rewrite E;
    intros H; inversion H; subst.
  - split; [reflexivity|]. split; [apply stays_refl|]. split; [reflexivity|].
    eauto.
  - destruct (Hc (Full.proc s)) as (a & Hp). rewrite Hp. cbn.
    unfold stays. cbn. auto 8 using incl_refl.
Qed.

Lemma summary_step_print env line : summary_step env (Full.print env line).
Proof.
  apply summary_step_attempt; [reflexivity|]. intros p. now exists tt.
Qed.

Lemma summary_step_results_loop env results n :
  summary_step env (Full.results_loop env results n).
Proof.
  revert n. induction results as [|[name success] rest IH]; intros n;
    cbn [Full.results_loop].
  - apply summary_step_ret.
  - apply summary_step_bind; [apply summary_step_print | intros _; apply IH].
Qed.

Lemma summary_step_files_loop env files :
  summary_step env (Full.files_loop env files).
Proof.
  induction files as [|file rest IH]; cbn [Full.files_loop].
  - apply summary_step_ret.
  - apply summary_step_bind; [apply summary_step_print | intros _; exact IH].
Qed.

Lemma summary_step_report env results : summary_step env (Full.report env results).
Proof.
  unfold Full.report.
  apply summary_step_bind; [apply summary_step_print | intros _].
  apply summary_step_bind; [apply summary_step_results_loop | intros n].
  apply summary_step_bind; [apply summary_step_print | intros _].
  apply summary_step_bind.
  { apply summary_step_attempt; [reflexivity|]. intros p.
    exists (cwd p ++ diagrams_dir). unfold Path_absolute. cbn. now destruct p. }
  intros a.
  apply summary_step_bind; [apply summary_step_print | intros _].
  apply summary_step_bind.
  { apply summary_step_attempt; [reflexivity|]. intros p.
    unfold Path_glob_png.
    destruct (is_dir (fs p) (cwd p ++ diagrams_dir)); eexists; cbn;
      now destruct p. }
  intros files.
  apply summary_step_bind; [|intros _; apply summary_step_ret].
  destruct files; [apply summary_step_ret|].
  apply summary_step_bind; [apply summary_step_print | intros _].
  apply summary_step_files_loop.
Qed.

(** The summary returns when the environment raises nothing in its
    calls. *)
Lemma full_report_returns env results s :
  quiet env summary_op -> exists b s1, Full.report env results s = (Ok b, s1).
Proof.
  intros Hq. destruct (Full.report env results s) as [[b|x] s1] eqn:R.
  - eauto.
  - destruct (summary_step_report _ _ _ _ _ R) as (_ & _ & _ & s0 & o & Ho & F).
    rewrite (Hq _ _ Ho) in F. discriminate.
Qed.

Lemma mkdir_step_bind {A B} (c : Full.M A) (k : A -> Full.M B) :
  mkdir_step c -> (forall a, mkdir_step (k a)) -> mkdir_step (Full.bind c k).
Proof.
  intros Hc Hk s r s2. unfold Full.bind.
  destruct (c s) as [[a|x] s1] eqn:C; destruct (Hc _ _ _ C) as (Hf & Hm).
  - intros K. destruct (Hk _ _ _ _ K) as (Hf' & Hm').
    split; [eapply fs_only_trans; eassumption | congruence].
  - intros H. inversion H; subst. auto.
Qed.

Lemma mkdir_step_ret {A} (a : A) : mkdir_step (Full.ret a).
Proof. intros s r s1 H. inversion H; subst. auto using fs_only_refl. Qed.

Lemma mkdir_step_raise {A} e : mkdir_step (@Full.raise A e).
Proof. intros s r s1 H. inversion H; subst. auto using fs_only_refl. Qed.

Lemma mkdir_step_try_except {A} (c : Full.M A) catches h :
  mkdir_step c -> (forall e, mkdir_step (h e)) ->
  mkdir_step (Full.try_except c catches h).
Proof.
  intros Hc Hh s r s2. unfold Full.try_except.
  destruct (c s) as [[a|x] s1] eqn:C; destruct (Hc _ _ _ C) as (Hf & Hm).
  - intros H. inversion H; subst. auto.
  - destruct (catches x).
    + intros K. destruct (Hh _ _ _ _ K) as (Hf' & Hm').
      split; [eapply fs_only_trans; eassumption | congruence].
    + intros H. inversion H; subst. auto.
Qed.

Lemma mkdir_step_attempt {A} env o (c : M A) :
  (forall p, fs_only p (snd (c p))) -> mkdir_step (Full.attempt env o c).
Proof.
  intros Hc s r s1.
  destruct (attempt_cases env o c s) as [(x & F & E)|(F & E)]; rewrite E;
    intros H; inversion H; subst.
  - auto using fs_only_refl.
  - cbn. auto.
Qed.

Lemma mkdir_step_os_mkdir env rel : mkdir_step (Full.os_mkdir env rel).
Proof.
  apply mkdir_step_attempt. intros p.
  destruct (os_mkdir rel p) as [r p1] eqn:E.
  pose proof (os_mkdir_effect _ _ _ _ E) as H. cbn [snd].
  destruct r; subst; [apply fs_only_set_fs | apply fs_only_refl].
Qed.

Lemma mkdir_step_is_dir env rel : mkdir_step (Full.Path_is_dir env rel).
Proof. apply mkdir_step_attempt. intros p. apply fs_only_refl. Qed.

Lemma mkdir_step_leaf env rel exist_ok :
  mkdir_step (Full.Path_mkdir_leaf env rel exist_ok).
Proof.
  apply mkdir_step_try_except; [apply mkdir_step_os_mkdir | intros e].
  destruct (isinstance_FileNotFoundError e); [apply mkdir_step_raise|].
  destruct (negb exist_ok); [apply mkdir_step_raise|].
  apply mkdir_step_bind; [apply mkdir_step_is_dir | intros d].
  destruct (negb d); [apply mkdir_step_raise | apply mkdir_step_ret].
Qed.

Lemma mkdir_step_parents env rrel exist_ok :
  mkdir_step (Full.Path_mkdir_parents env rrel exist_ok).
Proof.
  revert exist_ok. induction rrel as [|x rparent IH]; intros exist_ok;
    cbn [Full.Path_mkdir_parents];
    (apply mkdir_step_try_except; [apply mkdir_step_os_mkdir | intros e]);
    (destruct (isinstance_FileNotFoundError e);
     [|destruct (negb exist_ok); [apply mkdir_step_raise|];
       apply mkdir_step_bind; [apply mkdir_step_is_dir | intros d];
       destruct (negb d); [apply mkdir_step_raise | apply mkdir_step_ret]]).
  - apply mkdir_step_raise.
  - apply mkdir_step_bind; [apply IH | intros _; apply mkdir_step_leaf].
Qed.

(** [prepare], step by step: the banner, the directory creation on the
    state with the banner printed, and the change of directory on what the
    creation leaves. *)
Lemma full_prepare_run env s :
  Full.prepare env s =
  match Full.fault env s (Full.Print banner) with
  | Some x => (Raise x, s)
  | None =>
      match Full.Path_mkdir env diagrams_dir true true
              (Full.mkState
                 (set_stdout (stdout (Full.proc s) ++ [banner]) (Full.proc s))
                 (Full.sys_modules s)) with
      | (Raise e, s1) => (Raise e, s1)
      | (Ok _, s1) =>
          match Full.fault env s1 (Full.Chdir diagrams_dir) with
          | Some x => (Raise x, s1)
          | None =>
              (fst (os_chdir diagrams_dir (Full.proc s1)),
               Full.mkState (snd (os_chdir diagrams_dir (Full.proc s1)))
                            (Full.sys_modules s1))
          end
      end
  end.
Proof.
  unfold Full.prepare. unfold Full.bind at 1. rewrite full_print_run.
  fold banner.
  destruct (Full.fault env s (Full.Print banner)); [reflexivity|].
  unfold Full.bind.
  destruct (Full.Path_mkdir env diagrams_dir true true _) as [[[]|e] s1];
    [|reflexivity].
  unfold Full.os_chdir.
  destruct (attempt_cases env (Full.Chdir diagrams_dir)
              (os_chdir diagrams_dir) s1) as [(x & F & E)|(F & E)];
    rewrite E, F; reflexivity.
Qed.

(** [prepare] changes the working directory when it returns and only
    then; it never touches [sys.path] or [sys.modules]. *)
Lemma full_prepare_spec env s r s0 :
  Full.prepare env s = (r, s0) ->
  sys_path (Full.proc s0) = sys_path (Full.proc s) /\
  Full.sys_modules s0 = Full.sys_modules s /\
  match r with
  | Ok _ =>
      cwd (Full.proc s0) = cwd (Full.proc s) ++ diagrams_dir /\
      chdir_log (Full.proc s0)
        = chdir_log (Full.proc s) ++ [cwd (Full.proc s) ++ diagrams_dir] /\
      is_dir (fs (Full.proc s0)) (cwd (Full.proc s) ++ diagrams_dir) = true
  | Raise _ =>
      cwd (Full.proc s0) = cwd (Full.proc s) /\
      chdir_log (Full.proc s0) = chdir_log (Full.proc s)
  end.
Proof.
  rewrite full_prepare_run.
  destruct (Full.fault env s (Full.Print banner)) as [x|].
  { intros H. inversion H; subst. auto. }
  destruct (Full.Path_mkdir env diagrams_dir true true _) as [[[]|e] s1] eqn:E;
    destruct (mkdir_step_parents _ _ _ _ _ _ E) as ((Hc & Ho & Hp & Hl) & Hm);
    cbn [Full.proc Full.sys_modules cwd stdout sys_path chdir_log set_stdout]
      in Hc, Ho, Hp, Hl, Hm.
  2:{ intros H. inversion H; subst. auto. }
  destruct (Full.fault env s1 (Full.Chdir diagrams_dir)) as [x|].
  { intros H. inversion H; subst. auto. }
  unfold os_chdir. rewrite Hc.
  destruct (fs (Full.proc s1) !! (cwd (Full.proc s) ++ diagrams_dir))
    as [[|c]|] eqn:L;
    intros H; inversion H; subst; cbn; auto.
  split; [exact Hp|]. split; [exact Hm|]. rewrite Hl.
  unfold is_dir. rewrite L. auto.
Qed.

Lemma full_main_run env s :
  Full.main env s =
  match Full.prepare env s with
  | (Raise e, s0) => (Raise e, s0)
  | (Ok _, s0) =>
      match Full.generate_all env s0 with
      | (Raise e, s1) => (Raise e, s1)
      | (Ok results, s1) => Full.report env results s1
      end
  end.
Proof.
  unfold Full.main, Full.bind.
  destruct (Full.prepare env s) as [[[]|e] s0]; reflexivity.
Qed.


(** ** The environment: creating the output directory *)

Lemma mirrors_ret {A} (a : A) : mirrors (Full.ret a) (ret a).
Proof. intros s. split; reflexivity. Qed.

Lemma mirrors_raise {A} e : mirrors (@Full.raise A e) (raise e).
Proof. intros s. split; reflexivity. Qed.

Lemma mirrors_bind {A B} (c' : Full.M A) (c : M A)
    (k' : A -> Full.M B) (k : A -> M B) :
  mirrors c' c -> (forall a, mirrors (k' a) (k a)) ->
  mirrors (Full.bind c' k') (bind c k).
Proof.
  intros Hc Hk s. unfold Full.bind, bind. destruct (Hc s) as [Hr Hp].
  destruct (c' s) as [r' s1], (c (Full.proc s)) as [r p1].
  cbn [fst snd] in Hr, Hp. subst r' p1.
  destruct r as [a|e]; [apply Hk | split; reflexivity].
Qed.

Lemma mirrors_try_except {A} (c' : Full.M A) (c : M A) catches' catches h' h :
  mirrors c' c ->
  (forall p e p1, c p = (Raise e, p1) -> catches' e = catches e) ->
  (forall e, mirrors (h' e) (h e)) ->
  mirrors (Full.try_except c' catches' h') (try_except c catches h).
Proof.
  intros Hc Hcatch Hh s. unfold Full.try_except, try_except.
  destruct (Hc s) as [Hr Hp].
  destruct (c' s) as [r' s1], (c (Full.proc s)) as [r p1] eqn:C.
  cbn [fst snd] in Hr, Hp. subst r' p1.
  destruct r as [a|e]; [split; reflexivity|].
  rewrite (Hcatch _ _ _ C).
  destruct (catches e); [apply Hh | split; reflexivity].
Qed.

Lemma mirrors_attempt {A} env o (c : M A) :
  (forall s, Full.fault env s o = None) -> mirrors (Full.attempt env o c) c.
Proof.
  intros Hq s. rewrite attempt_ok by apply Hq. split; reflexivity.
Qed.

Lemma os_mkdir_OSError rel p e p1 :
  os_mkdir rel p = (Raise e, p1) -> isinstance_OSError e = true.
Proof.
  unfold os_mkdir. destruct rel as [|x l].
  - destruct (fs p !! (cwd p ++ [])); intros H; now inversion H.
  - cbn zeta.
    destruct (fs p !! removelast (cwd p ++ x :: l)) as [[|c]|];
      [destruct (fs p !! (cwd p ++ x :: l))|..]; intros H; now inversion H.
Qed.

Lemma mirrors_mkdir_tail env rel exist_ok e :
  quiet env mkdir_op ->
  mirrors
    (if negb exist_ok then Full.raise e
     else Full.bind (Full.Path_is_dir env rel)
            (fun d => if negb d then Full.raise e else Full.ret tt))
    (bind (Path_is_dir rel)
       (fun d => if negb exist_ok || negb d then raise e else ret tt)).
Proof.
  intros Hq. destruct exist_ok; cbn [negb orb].
  - apply mirrors_bind.
    + apply mirrors_attempt. intros s. now apply Hq.
    + intros d. destruct d; [apply mirrors_ret | apply mirrors_raise].
  - intros s. split; reflexivity.
Qed.

Lemma mirrors_Path_mkdir_leaf env rel exist_ok :
  quiet env mkdir_op ->
  mirrors (Full.Path_mkdir_leaf env rel exist_ok) (Path_mkdir_leaf rel exist_ok).
Proof.
  intros Hq. apply mirrors_try_except.
  - apply mirrors_attempt. intros s. now apply Hq.
  - intros p e p1 E. apply (os_mkdir_OSError _ _ _ _ E).
  - intros e. destruct (isinstance_FileNotFoundError e);
      [apply mirrors_raise | now apply mirrors_mkdir_tail].
Qed.

Lemma mirrors_Path_mkdir_parents env rrel exist_ok :
  quiet env mkdir_op ->
  mirrors (Full.Path_mkdir_parents env rrel exist_ok)
          (Path_mkdir_parents rrel exist_ok).
Proof.
  intros Hq. revert exist_ok.
  induction rrel as [|x rparent IH]; intros exist_ok;
    cbn [Full.Path_mkdir_parents Path_mkdir_parents];
    (apply mirrors_try_except;
     [apply mirrors_attempt; intros s; now apply Hq
     |intros p e p1 E; apply (os_mkdir_OSError _ _ _ _ E)
     |intros e; destruct (isinstance_FileNotFoundError e);
      [|now apply mirrors_mkdir_tail]]).
  - apply mirrors_raise.
  - apply mirrors_bind; [apply IH | intros _; now apply mirrors_Path_mkdir_leaf].
Qed.







Lemma healthy_quiet w P :
  (forall o, P o = true -> Full.library_op o = false) -> quiet (healthy w) P.
Proof.
  intros HP s o Ho. apply HP in Ho. destruct o; try reflexivity; discriminate.
Qed.





(** ** The environment: after the set-up *)

Lemma mirrors_print env line :
  quiet env summary_op -> mirrors (Full.print env line) (print line).
Proof. intros Hq. apply mirrors_attempt. intros s. now apply Hq. Qed.

Lemma mirrors_results_loop env results n :
  quiet env summary_op ->
  mirrors (Full.results_loop env results n) (results_loop results n).
Proof.
  intros Hq. revert n.
  induction results as [|[name success] rest IH]; intros n;
    cbn [Full.results_loop results_loop].
  - apply mirrors_ret.
  - apply mirrors_bind; [now apply mirrors_print | intros _; apply IH].
Qed.

Lemma mirrors_files_loop env files :
  quiet env summary_op -> mirrors (Full.files_loop env files) (files_loop files).
Proof.
  intros Hq. induction files as [|file rest IH];
    cbn [Full.files_loop files_loop].
  - apply mirrors_ret.
  - apply mirrors_bind; [now apply mirrors_print | intros _; exact IH].
Qed.

(** When the environment raises nothing in the calls of the summary, the
    summary is the one of the first part. *)
Lemma mirrors_report env results :
  quiet env summary_op -> mirrors (Full.report env results) (report results).
Proof.
  intros Hq. unfold Full.report, report.
  apply mirrors_bind; [now apply mirrors_print | intros _].
  apply mirrors_bind; [now apply mirrors_results_loop | intros n].
  apply mirrors_bind; [now apply mirrors_print | intros _].
  apply mirrors_bind;
    [apply mirrors_attempt; intros s; now apply Hq | intros a].
  apply mirrors_bind; [now apply mirrors_print | intros _].
  apply mirrors_bind;
    [apply mirrors_attempt; intros s; now apply Hq | intros files].
  apply mirrors_bind; [|intros _; apply mirrors_ret].
  destruct files; [apply mirrors_ret|].
  apply mirrors_bind; [now apply mirrors_print | intros _].
  now apply mirrors_files_loop.
Qed.

(** What leaves a builder. *)
Lemma full_build_escape env sh s x s2 :
  Full.build env sh s = (Raise x, s2) ->
  exists e,
    Full.body env sh s = (Raise e, s2) /\
    (isinstance_Exception e = false /\ x = e
     \/ isinstance_Exception e = true /\
        Full.fault env s2 (Full.Print (sh_failed sh +:+ exn_text e)) = Some x).
Proof.
  rewrite full_build_run.
  destruct (Full.body env sh s) as [[r|e] s1]; [discriminate|].
  destruct (isinstance_Exception e) eqn:Hi.
  - destruct (Full.fault env s1 _) as [y|] eqn:P; [|discriminate].
    intros H. inversion H; subst. exists e. split; [reflexivity|]. auto.
  - intros H. inversion H; subst. exists x. auto.
Qed.

(** A builder returns when only the library raises and only instances of
    [Exception]. *)
Lemma full_build_returns env sh s :
  only_library_Exceptions env -> exists r s1, Full.build env sh s = (Ok r, s1).
Proof.
  intros Honly. destruct (Full.build env sh s) as [[r|x] s1] eqn:B; [eauto|].
  apply full_build_spec in B as (_ & s0 & o & F & Hcase).
  destruct (Honly _ _ _ F) as [Hlib Hi].
  destruct Hcase as [[Hn _]|(e & _ & ->)]; [congruence | discriminate].
Qed.

Lemma full_generate_all_returns env s :
  only_library_Exceptions env ->
  exists results s1, Full.generate_all env s = (Ok results, s1).
Proof.
  intros Honly. rewrite full_generate_all_builds. unfold Full.bind, Full.ret.
  destruct (full_build_returns env current_hobby_shape s Honly) as (r1 & s1 & ->).
  destruct (full_build_returns env consolidated_shape s1 Honly) as (r2 & s2 & ->).
  destruct (full_build_returns env future_scaling_shape s2 Honly) as (r3 & s3 & ->).
  destruct (full_build_returns env corrected_neon_shape s3 Honly) as (r4 & s4 & ->).
  eauto.
Qed.

Lemma only_library_quiet env :
  only_library_Exceptions env -> quiet env summary_op.
Proof.
  intros Honly s o Ho. destruct (Full.fault env s o) as [e|] eqn:F; [|reflexivity].
  destruct (Honly _ _ _ F) as [Hlib _]. destruct o; discriminate.
Qed.

(** C10, as amended: once the output directory has been made and entered,
    [main] can still raise.  What leaves it then is an exception raised
    in the [try] block of a builder that is not an instance of
    [Exception], or one raised by the [print] in the [except] block of a
    builder, or one raised in a call of the summary ([print],
    [Path.absolute], the glob), none of which is inside a [try].  The
    glob of a path that is not a directory is empty and raises nothing
    unless the environment does.  When nothing but the import and
    rendering steps raises, and these raise instances of [Exception]
    only, [main] returns the conjunction of four results. *)
Theorem what_main_raises_after_setup env s s0 :
  Full.prepare env s = (Ok tt, s0) ->
  (forall x s2,
     Full.main env s = (Raise x, s2) ->
     (exists name b sh s' e,
        In (name, b, sh) Full.builders /\
        b env s' = (Raise x, s2) /\
        Full.body env sh s' = (Raise e, s2) /\
        (isinstance_Exception e = false /\ x = e
         \/ isinstance_Exception e = true /\
            Full.fault env s2 (Full.Print (sh_failed sh +:+ exn_text e))
              = Some x))
     \/ (exists results s1 s' o,
           Full.generate_all env s0 = (Ok results, s1) /\
           Full.report env results s1 = (Raise x, s2) /\
           summary_op o = true /\ Full.fault env s' o = Some x)) /\
  (forall s1,
     Full.fault env s1 (Full.Glob diagrams_dir) = None ->
     is_dir (fs (Full.proc s1)) (cwd (Full.proc s1) ++ diagrams_dir) = false ->
     Full.Path_glob_png env diagrams_dir s1 = (Ok [], s1)) /\
  (only_library_Exceptions env ->
   exists results s1 s2,
     Full.generate_all env s0 = (Ok results, s1) /\
     length results = 4 /\
     Full.main env s = (Ok (forallb snd results), s2)).
Proof.
  intros Hp. split; [|split].
  - intros x s2. rewrite full_main_run, Hp.
    destruct (Full.generate_all env s0) as [[results|x'] s1] eqn:G.
    + intros R. right. exists results, s1.
      destruct (summary_step_report _ _ _ _ _ R)
        as (_ & _ & _ & s' & o & Ho & F).
      exists s', o. auto.
    + intros H. inversion H; subst. left.
      apply full_generate_all_spec in G
        as (_ & name & b & sh & s' & Hin & _ & B).
      pose proof B as B'.
      rewrite (full_builders_are_builds _ _ _ Hin env) in B'.
      apply full_build_escape in B' as (e & Hb & Hcase).
      exists name, b, sh, s', e. auto.
  - intros s1 F Hd. unfold Full.Path_glob_png.
    rewrite attempt_ok by exact F. unfold Path_glob_png. rewrite Hd. cbn.
    now rewrite full_state_eta.
  - intros Honly.
    destruct (full_generate_all_returns env s0 Honly) as (results & s1 & G).
    pose proof (full_generate_all_spec _ _ _ _ G) as [_ Hlen].
    exists results, s1. rewrite full_main_run, Hp, G.
    destruct (mirrors_report env results (only_library_quiet _ Honly) s1)
      as [Hr _].
    rewrite report_run, all_succeeded in Hr. cbn [fst] in Hr.
    eexists. split; [reflexivity|]. split; [exact Hlen|].
    apply full_run_eq. exact Hr.
Qed.

Lemma what_main_raises_after_setup_witness :
  exists results s1 s2,
    Full.generate_all (healthy flaky_world)
      (snd (Full.prepare (healthy flaky_world) (Full.start ["w"] empty_project)))
      = (Ok results, s1) /\
    Full.main (healthy flaky_world) (Full.start ["w"] empty_project)
      = (Ok (forallb snd results), s2).
Proof.
  assert (Hp : fst (Full.prepare (healthy flaky_world)
                      (Full.start ["w"] empty_project)) = Ok tt)
    by (vm_compute; reflexivity).
  assert (Honly : only_library_Exceptions (healthy flaky_world)).
  { intros s o e. destruct o; cbn; try discriminate.
    destruct (String.eqb (title d) "Future Scaling Architecture");
      [|discriminate].
    intros H. inversion H; subst. split; reflexivity. }
  destruct (proj2 (proj2 (what_main_raises_after_setup _ _ _
                            (full_run_eq _ _ Hp))) Honly)
    as (results & s1 & s2 & G & _ & H).
  exists results, s1, s2. split; [exact G | exact H].
Defined.

(** C10, as stated, fails: with the directory made and entered, a
    [KeyboardInterrupt] during a rendering leaves [main] through
    [except Exception]; and one that arrives while the results header is
    printed, after four builders have returned [True], leaves [main] from
    outside any builder. *)
Lemma main_raises_after_setup :
  fst (Full.prepare (healthy interrupted_world) (Full.start ["w"] empty_project))
    = Ok tt /\
  fst (Full.main (healthy interrupted_world) (Full.start ["w"] empty_project))
    = Raise keyboard_interrupt /\
  fst (Full.prepare interrupted_summary_env (Full.start ["w"] empty_project))
    = Ok tt /\
  fst (Full.generate_all interrupted_summary_env
         (snd (Full.prepare interrupted_summary_env
                 (Full.start ["w"] empty_project))))
    = Ok [ ("Current Hobby Architecture", true);
           ("Consolidated Architecture", true);
           ("Future Scaling Architecture", true);
           ("Corrected Neon Branching", true) ] /\
  fst (Full.main interrupted_summary_env (Full.start ["w"] empty_project))
    = Raise keyboard_interrupt /\
  ~ (forall env s s0,
       Full.prepare env s = (Ok tt, s0) ->
       exists b s2, Full.main env s = (Ok b, s2)).
Proof.
  assert (Hp : fst (Full.prepare interrupted_summary_env
                      (Full.start ["w"] empty_project)) = Ok tt)
    by (vm_compute; reflexivity).
  assert (Hm : fst (Full.main interrupted_summary_env
                      (Full.start ["w"] empty_project))
               = Raise keyboard_interrupt)
    by (vm_compute; reflexivity).
  split; [vm_compute; reflexivity|]. split; [vm_compute; reflexivity|].
  split; [exact Hp|]. split; [vm_compute; reflexivity|].
  split; [exact Hm|].
  intros H. destruct (H _ _ _ (full_run_eq _ _ Hp)) as (b & s2 & E).
  rewrite (full_run_eq _ _ Hm) in E. discriminate E.
Qed.


(** ** The environment: what a run changes in the process *)

(** After the set-up nothing changes the working directory or
    [sys.path]. *)
Lemma full_main_spec env s :
  let s2 := snd (Full.main env s) in
  sys_path (Full.proc s2) = sys_path (Full.proc s) /\
  incl (Full.sys_modules s) (Full.sys_modules s2) /\
  match fst (Full.prepare env s) with
  | Ok _ =>
      cwd (Full.proc s2) = cwd (Full.proc s) ++ diagrams_dir /\
      chdir_log (Full.proc s2)
        = chdir_log (Full.proc s) ++ [cwd (Full.proc s) ++ diagrams_dir]
  | Raise _ =>
      cwd (Full.proc s2) = cwd (Full.proc s) /\
      chdir_log (Full.proc s2) = chdir_log (Full.proc s)
  end.
Proof.
  cbn zeta. rewrite full_main_run.
  destruct (Full.prepare env s) as [[[]|e] s0] eqn:P;
    pose proof (full_prepare_spec _ _ _ _ P) as (Hp & Hm & Hr); cbn [fst].
  2:{ cbn [snd]. rewrite Hm. auto using incl_refl. }
  destruct Hr as (Hc & Hl & _).
  destruct (Full.generate_all env s0) as [[results|x] s1] eqn:G;
    pose proof (full_generate_all_spec _ _ _ _ G) as ((Hc1 & Hl1 & Hp1 & Hi1) & _).
  2:{ cbn [snd]. rewrite Hp1, Hc1, Hl1, Hp, Hc, Hl. rewrite Hm in Hi1. auto. }
  destruct (Full.report env results s1) as [r s2] eqn:R.
  destruct (summary_step_report _ _ _ _ _ R)
    as (_ & (Hc2 & Hl2 & Hp2 & _) & Hm2 & _).
  cbn [snd]. rewrite Hp2, Hc2, Hl2, Hm2, Hp1, Hc1, Hl1, Hp, Hc, Hl.
  rewrite Hm in Hi1. auto.
Qed.

Lemma load_diagrams env s :
  Full.fault env s (Full.ImportModule "diagrams") = None ->
  exists s1,
    Full.load env (Full.packages "diagrams") s = (Ok tt, s1) /\
    In "diagrams" (Full.sys_modules s1).
Proof.
  intros F. change (Full.packages "diagrams") with ["diagrams"].
  cbn [Full.load]. unfold Full.bind, Full.ret.
  destruct (mem "diagrams" (Full.sys_modules s)) eqn:M.
  - exists s. split; [reflexivity | now apply mem_In].
  - rewrite F. eexists. split; [reflexivity|]. cbn. apply in_or_app.
    right. now left.
Qed.

(** A builder keeps the modules its first import statement has loaded. *)
Lemma full_build_keeps_first_load env sh m names rest s s1 :
  sh_imports sh = (m, names) :: rest ->
  Full.load env (Full.packages m) s = (Ok tt, s1) ->
  incl (Full.sys_modules s1) (Full.sys_modules (snd (Full.build env sh s))).
Proof.
  intros Hsh L.
  assert (Hb : Full.body env sh s =
               Full.bind (Full.import_names env m names)
                 (fun _ => Full.body env
                             (mkShape rest (sh_diagram sh) (sh_done sh) (sh_failed sh)))
                 s1).
  { unfold Full.body at 1. rewrite Hsh. cbn [Full.imports_then].
    unfold Full.bind at 1. unfold Full.from_import. unfold Full.bind at 1.
    rewrite L. unfold Full.bind.
    destruct (Full.import_names env m names s1) as [[[]|e] s'];
      reflexivity. }
  rewrite full_build_run, Hb. unfold Full.bind.
  destruct (Full.import_names env m names s1) as [[[]|e] s'] eqn:N;
    pose proof (import_names_spec _ _ _ _ _ _ N) as [-> _].
  - destruct (Full.body env _ s1) as [[r|e] s3] eqn:B;
      pose proof (body_spec _ _ _ _ _ B) as ((_ & _ & _ & Hi) & _).
    + exact Hi.
    + destruct (isinstance_Exception e); [|exact Hi].
      now destruct (Full.fault env s3 _).
  - destruct (isinstance_Exception e); [|apply incl_refl].
    destruct (Full.fault env s1 _); apply incl_refl.
Qed.

Lemma full_builders_import_diagrams_first name b sh :
  In (name, b, sh) Full.builders ->
  exists names rest, sh_imports sh = ("diagrams", names) :: rest.
Proof.
  intros [H|[H|[H|[H|[]]]]]; inversion H; subst; eexists _, _; reflexivity.
Qed.

(** C9, as amended: the working directory is changed at most once in a
    run: exactly once, into the output directory, when the directory
    creation and [os.chdir] both return, and not at all when one of them
    raises; no builder and no step of the summary changes it, and nothing
    changes it back.  It is not the only process state a run changes:
    the module-level statement prepends the invocation directory to
    [sys.path], which [main] then leaves alone, and the import statements
    of the builders add modules to [sys.modules], the package [diagrams]
    first. *)
Theorem working_directory_changed_at_most_once env s :
  let s2 := snd (Full.main env s) in
  let out := cwd (Full.proc s) ++ diagrams_dir in
  match fst (Full.prepare env s) with
  | Ok _ =>
      cwd (Full.proc s2) = out /\
      chdir_log (Full.proc s2) = chdir_log (Full.proc s) ++ [out]
  | Raise _ =>
      cwd (Full.proc s2) = cwd (Full.proc s) /\
      chdir_log (Full.proc s2) = chdir_log (Full.proc s)
  end /\
  (forall name b sh s0,
     In (name, b, sh) Full.builders ->
     cwd (Full.proc (snd (b env s0))) = cwd (Full.proc s0) /\
     chdir_log (Full.proc (snd (b env s0))) = chdir_log (Full.proc s0)) /\
  (forall results s0,
     cwd (Full.proc (snd (Full.report env results s0))) = cwd (Full.proc s0) /\
     chdir_log (Full.proc (snd (Full.report env results s0)))
       = chdir_log (Full.proc s0)) /\
  sys_path (Full.proc s2) = sys_path (Full.proc s) /\
  (forall s',
     Full.fault env s' Full.Getcwd = None ->
     sys_path (Full.proc (snd (Full.module_init env s')))
       = Path_str (cwd (Full.proc s')) :: sys_path (Full.proc s')) /\
  incl (Full.sys_modules s) (Full.sys_modules s2) /\
  (forall name b sh s0,
     In (name, b, sh) Full.builders ->
     Full.fault env s0 (Full.ImportModule "diagrams") = None ->
     In "diagrams" (Full.sys_modules (snd (b env s0)))).
Proof.
  cbn zeta. destruct (full_main_spec env s) as (Hp & Hi & Hc).
  split; [exact Hc|]. split; [|split; [|split; [exact Hp|split; [|split; [exact Hi|]]]]].
  - intros name b sh s0 Hin.
    rewrite (full_builders_are_builds _ _ _ Hin env).
    destruct (Full.build env sh s0) as [r s1] eqn:B.
    now destruct (full_build_spec _ _ _ _ _ B) as ((? & ? & _) & _).
  - intros results s0.
    destruct (Full.report env results s0) as [r s1] eqn:R.
    now destruct (summary_step_report _ _ _ _ _ R) as (_ & (? & ? & _) & _).
  - intros s' F. unfold Full.module_init, Full.bind, Full.os_getcwd.
    rewrite attempt_ok by exact F. reflexivity.
  - intros name b sh s0 Hin F.
    destruct (full_builders_import_diagrams_first _ _ _ Hin)
      as (names & rest & Hsh).
    destruct (load_diagrams env s0 F) as (s1 & L & Hd).
    rewrite (full_builders_are_builds _ _ _ Hin env).
    apply (full_build_keeps_first_load _ _ _ _ _ _ _ Hsh L). exact Hd.
Qed.

Lemma working_directory_changed_at_most_once_witness :
  cwd (Full.proc (snd (Full.main (healthy ideal_world)
                         (Full.start ["w"] empty_project))))
    = ["w"; "docs"; "diagrams"] /\
  chdir_log (Full.proc (snd (Full.main (healthy ideal_world)
                               (Full.start ["w"] empty_project))))
    = [["w"; "docs"; "diagrams"]].
Proof.
  exact (proj1 (working_directory_changed_at_most_once
                  (healthy ideal_world) (Full.start ["w"] empty_project))).
Defined.

(** C9, as stated, fails.  A run changes more shared state than the
    working directory: [sys.path] and [sys.modules] differ after it.  And
    the working directory is not always changed once: it is never changed
    when [docs] is a regular file, nor when [docs/diagrams] exists and
    may not be entered. *)
Lemma run_changes_more_and_may_never_chdir :
  let done := snd (Full.script (healthy ideal_world)
                     (Full.start ["w"] empty_project)) in
  sys_path (Full.proc done) = ["/w"] /\
  Full.sys_modules done =
    [ "diagrams"; "diagrams.aws"; "diagrams.aws.compute";
      "diagrams.aws.network"; "diagrams.aws.database";
      "diagrams.aws.security"; "diagrams.aws.management";
      "diagrams.aws.general"; "diagrams.aws.storage";
      "diagrams.onprem"; "diagrams.onprem.database";
      "diagrams.onprem.inmemory"; "diagrams.onprem.client";
      "diagrams.generic"; "diagrams.generic.blank" ] /\
  chdir_log (Full.proc (snd (Full.script (healthy ideal_world)
                               (Full.start ["w"] blocked_project)))) = [] /\
  chdir_log (Full.proc (snd (Full.script locked_env
                               (Full.start ["w"] used_project)))) = [] /\
  ~ (forall env s,
       let s2 := snd (Full.script env s) in
       chdir_log (Full.proc s2)
         = chdir_log (Full.proc s) ++ [cwd (Full.proc s) ++ diagrams_dir] /\
       sys_path (Full.proc s2) = sys_path (Full.proc s) /\
       Full.sys_modules s2 = Full.sys_modules s).
Proof.
  cbn zeta.
  assert (H3 : chdir_log (Full.proc (snd (Full.script locked_env
                 (Full.start ["w"] used_project)))) = [])
    by (vm_compute; reflexivity).
  split; [vm_compute; reflexivity|]. split; [vm_compute; reflexivity|].
  split; [vm_compute; reflexivity|]. split; [exact H3|].
  intros H. destruct (H locked_env (Full.start ["w"] used_project)) as [E _].
  rewrite H3 in E. discriminate E.
Qed.


(** ** The healthy environment *)

(** In the environment [healthy w] the script does to the process exactly
    what the definitions of the first part say for the world [w]: they
    are the case of an environment in which nothing but the library
    raises. *)

Lemma healthy_load w ms : mirrors (Full.load (healthy w) ms) (ret tt).
Proof.
  induction ms as [|m rest IH]; intros s; cbn [Full.load].
  - split; reflexivity.
  - unfold Full.bind at 1 2. destruct (mem m (Full.sys_modules s)).
    + apply IH.
    + cbn [Full.fault healthy]. apply (IH (Full.mkState _ _)).
Qed.

Lemma healthy_import_names w m names :
  mirrors (Full.import_names (healthy w) m names) (from_import w m names).
Proof.
  induction names as [|n rest IH]; intros s;
    cbn [Full.import_names from_import].
  - split; reflexivity.
  - unfold Full.bind at 1 2, Full.attempt. cbn [Full.fault healthy].
    destruct (import_fault w m n); [split; reflexivity|].
    rewrite full_state_eta. apply IH.
Qed.

Lemma healthy_from_import w m names :
  mirrors (Full.from_import (healthy w) m names) (from_import w m names).
Proof.
  intros s. unfold Full.from_import. unfold Full.bind at 1 2.
  destruct (healthy_load w (Full.packages m) s) as [Hr Hp].
  destruct (Full.load (healthy w) (Full.packages m) s) as [r s1].
  cbn [fst snd ret] in Hr, Hp. subst r. rewrite <- Hp.
  apply healthy_import_names.
Qed.

Lemma healthy_with_Diagram w d :
  mirrors (Full.with_Diagram (healthy w) d) (with_Diagram w d).
Proof.
  intros s. unfold Full.with_Diagram, Full.attempt, with_Diagram.
  cbn [Full.fault Full.image healthy].
  destruct (diagram_fault w d); split; reflexivity.
Qed.

Lemma healthy_summary_quiet w : quiet (healthy w) summary_op.
Proof. apply healthy_quiet. intros o Ho. destruct o; try reflexivity; discriminate. Qed.

Lemma healthy_mkdir_quiet w : quiet (healthy w) mkdir_op.
Proof. apply healthy_quiet. intros o Ho. destruct o; try reflexivity; discriminate. Qed.

Lemma healthy_imports_then {A} w imports (k' : Full.M A) (k : M A) :
  mirrors k' k ->
  mirrors (Full.imports_then (healthy w) imports k') (imports_then w imports k).
Proof.
  intros Hk. induction imports as [|[m names] rest IH];
    cbn [Full.imports_then imports_then]; [exact Hk|].
  apply mirrors_bind; [apply healthy_from_import | intros _; exact IH].
Qed.

Lemma healthy_build w sh : mirrors (Full.build (healthy w) sh) (build w sh).
Proof.
  unfold Full.build, build. apply mirrors_try_except.
  - apply healthy_imports_then.
    apply mirrors_bind; [apply healthy_with_Diagram | intros _].
    apply mirrors_bind; [apply mirrors_print, healthy_summary_quiet | intros _].
    apply mirrors_ret.
  - reflexivity.
  - intros e. unfold Full.handler.
    apply mirrors_bind; [apply mirrors_print, healthy_summary_quiet | intros _].
    apply mirrors_ret.
Qed.

Lemma healthy_generate_all w :
  mirrors (Full.generate_all (healthy w)) (generate_all w).
Proof.
  rewrite full_generate_all_builds, generate_all_builds.
  repeat (apply mirrors_bind; [apply healthy_build | intros ?]).
  apply mirrors_ret.
Qed.

Lemma healthy_prepare w : mirrors (Full.prepare (healthy w)) prepare.
Proof.
  unfold Full.prepare, prepare.
  apply mirrors_bind; [apply mirrors_print, healthy_summary_quiet | intros _].
  apply mirrors_bind;
    [apply mirrors_Path_mkdir_parents, healthy_mkdir_quiet | intros _].
  apply mirrors_attempt. reflexivity.
Qed.

Lemma healthy_main w : mirrors (Full.main (healthy w)) (main w).
Proof.
  unfold Full.main, main.
  apply mirrors_bind; [apply healthy_prepare | intros _].
  apply mirrors_bind; [apply healthy_generate_all | intros results].
  apply mirrors_report, healthy_summary_quiet.
Qed.

Lemma healthy_script w s :
  fst (Full.script (healthy w) s) = fst (script w (Full.proc s)) /\
  Full.proc (snd (Full.script (healthy w) s)) = snd (script w (Full.proc s)).
Proof.
  assert (H : mirrors (Full.bind (Full.module_init (healthy w))
                         (fun _ => Full.main (healthy w)))
                      (module_init;; main w)).
  { apply mirrors_bind; [|intros _; apply healthy_main].
    unfold Full.module_init, module_init.
    apply mirrors_bind; [apply mirrors_attempt; reflexivity | intros c].
    intros s'. split; reflexivity. }
  unfold Full.script, script. destruct (H s) as [Hr Hp].
  destruct (Full.bind _ _ s) as [r' s1], ((module_init;; main w) (Full.proc s))
    as [r p1].
  cbn [fst snd] in Hr, Hp. subst r' p1.
  destruct r; split; reflexivity.
Qed.


